(** * Instagram OAuth integration: CSRF state registry, token store and
      OAuth callback, embedded from the JavaScript sources

    Sources embedded here:
    - [backend/src/middleware/csrfProtection.js]  (module [Csrf])
    - [backend/src/services/tokenStorage.js]      (module [TokenStorage])
    - [backend/src/routes/auth.js]                (module [Auth])
    - the [setInterval] timer of csrfProtection.js (module [Server])

    Conventions of the embedding.
    - [Date.now()] is an input: every call site that reads the clock takes
      the reading as an argument (milliseconds since the epoch, a [Z]).
    - [uuidv4()] is an input of [generateState].
    - A JavaScript [Map] is an association list in insertion order with the
      semantics of [Map.prototype.get/set/delete].
    - JavaScript numbers are the integers (exact in a double up to 2^53)
      together with [NaN] and the two infinities. *)

From Stdlib Require Import ZArith List String Ascii Bool Lia.

#[local] Set Warnings "-register-all".
#[local] Set Warnings "-automation".
#[local] Set Warnings "-default".

Import ListNotations.

Local Open Scope string_scope.
Local Open Scope Z_scope.

(* ================================================================== *)
(** ** JavaScript values *)

Module Js.

(** The numbers of the embedding are the whole numbers, [NaN] and the two
    infinities. Clock readings, durations in seconds and status codes are
    whole numbers; a number with a fractional part has no counterpart here,
    and statements are made only for the numbers that have one. *)
Inductive number : Type :=
| NaN
| Inf (negative : bool)
| Fin (z : Z).

Inductive value : Type :=
| VUndefined
| VNull
| VBool (b : bool)
| VNum (n : number)
| VStr (s : string)
| VArr (items : list value)
| VObj (props : list (string * value)).

(** [ToBoolean]. *)
Definition truthy (v : value) : bool :=
  match v with
  | VUndefined | VNull => false
  | VBool b => b
  | VNum NaN => false
  | VNum (Inf _) => true
  | VNum (Fin z) => negb (z =? 0)
  | VStr s => negb (s =? "")%string
  | VArr _ | VObj _ => true
  end.

(** [a || b]. *)
Definition or_else (a b : value) : value := if truthy a then a else b.

(** [a || b] where [a] is a string or [undefined] and [b] a string. *)
Definition or_str (a : option string) (b : string) : string :=
  match a with
  | Some s => if truthy (VStr s) then s else b
  | None => b
  end.

(** The number [v] is when [typeof v === 'number'] holds. *)
Definition as_number (v : value) : option number :=
  match v with VNum n => Some n | _ => None end.

(** [a > b] on numbers. *)
Definition gt (a b : number) : bool :=
  match a, b with
  | NaN, _ | _, NaN => false
  | Inf false, Inf false => false
  | Inf false, _ => true
  | Inf true, _ => false
  | Fin _, Inf neg => neg
  | Fin x, Fin y => x >? y
  end.

(** [a * b] on numbers. On whole numbers the product is the mathematical
    one, which is the IEEE 754 result as long as it is a safe integer (at
    most [JsRange.MAX_SAFE_INTEGER] in absolute value). *)
Definition mul (a b : number) : number :=
  match a, b with
  | NaN, _ | _, NaN => NaN
  | Inf s, Inf s' => Inf (xorb s s')
  | Inf s, Fin z | Fin z, Inf s =>
      if z =? 0 then NaN else Inf (xorb s (z <? 0))
  | Fin x, Fin y => Fin (x * y)
  end.

(** [a + b] on numbers. On whole numbers the sum is the mathematical one,
    which is the IEEE 754 result as long as it is a safe integer. *)
Definition add (a b : number) : number :=
  match a, b with
  | NaN, _ | _, NaN => NaN
  | Inf s, Inf s' => if Bool.eqb s s' then Inf s else NaN
  | Inf s, Fin _ | Fin _, Inf s => Inf s
  | Fin x, Fin y => Fin (x + y)
  end.

(** [encodeURIComponent] on a string given by its UTF-8 bytes: the
    unreserved characters [A-Z a-z 0-9 - _ . ! ~ * ' ( )] are kept, every
    other byte becomes [%XX] in upper-case hexadecimal. *)
Definition unreserved (c : ascii) : bool :=
  let n := nat_of_ascii c in
  ((65 <=? n) && (n <=? 90) || (97 <=? n) && (n <=? 122)
   || (48 <=? n) && (n <=? 57)
   || (n =? 45) || (n =? 95) || (n =? 46) || (n =? 33) || (n =? 126)
   || (n =? 42) || (n =? 39) || (n =? 40) || (n =? 41))%nat.

Definition hex_digit (n : nat) : ascii :=
  if (n <? 10)%nat then ascii_of_nat (48 + n) else ascii_of_nat (55 + n).

Fixpoint encodeURIComponent (s : string) : string :=
  match s with
  | EmptyString => EmptyString
  | String c rest =>
      if unreserved c then String c (encodeURIComponent rest)
      else
        let n := nat_of_ascii c in
        String "%" (String (hex_digit (n / 16))
                      (String (hex_digit (n mod 16))
                         (encodeURIComponent rest)))
  end.

End Js.

(* ================================================================== *)
(** ** JavaScript [Map] with string keys *)

Module JsMap.

Section Map.
Context {V : Type}.

(** Entries in insertion order. *)
Definition t : Type := list (string * V).

Definition empty : t := [].

(** [m.get(k)]; [None] is [undefined]. *)
Fixpoint get (k : string) (m : t) : option V :=
  match m with
  | [] => None
  | (k', v) :: m' => if (k =? k')%string then Some v else get k m'
  end.

(** [m.set(k, v)]: an existing key keeps its position, a new key is
    appended. *)
Fixpoint set (k : string) (v : V) (m : t) : t :=
  match m with
  | [] => [(k, v)]
  | (k', v') :: m' =>
      if (k =? k')%string then (k, v) :: m' else (k', v') :: set k v m'
  end.

(** [m.has(k)]. *)
Definition has (k : string) (m : t) : bool :=
  existsb (fun e => (k =? fst e)%string) m.

(** The map left by [m.delete(k)]; the call itself returns [has k m]. *)
Definition delete (k : string) (m : t) : t :=
  filter (fun e => negb (k =? fst e)%string) m.

(** [m.size]. *)
Definition size (m : t) : nat := List.length m.

Definition keys (m : t) : list string := map fst m.

(** Number of entries stored under [k]. *)
Definition count (k : string) (m : t) : nat :=
  List.length (filter (fun e => (k =? fst e)%string) m).

(** A [Map] never holds a key twice. *)
Definition wf (m : t) : Prop := NoDup (keys m).

End Map.

Arguments t : clear implicits.

End JsMap.

(* ================================================================== *)
(** ** csrfProtection.js *)

Module Csrf.

(** [const stateStore = new Map()], state -> timestamp. *)
Definition stateStore : Type := JsMap.t Z.

Definition STATE_EXPIRATION_MS : Z := 10 * 60 * 1000.

Definition CLEANUP_INTERVAL_MS : Z := 5 * 60 * 1000.

(** [generateState()]; [uuid] is the result of [uuidv4()], [now] the
    reading of [Date.now()]. *)
Definition generateState (uuid : string) (now : Z) (st : stateStore)
  : string * stateStore :=
  let state := uuid in
  let timestamp := now in
  (state, JsMap.set state timestamp st).

(** [validateState(state)]; [now] is the reading of [Date.now()] taken
    when the expiry check is reached. *)
Definition validateState (state : string) (now : Z) (st : stateStore)
  : bool * stateStore :=
  if negb (Js.truthy (Js.VStr state)) then (false, st)
  else
    match JsMap.get state st with
    | None => (false, st)
    | Some timestamp =>
        if negb (Js.truthy (Js.VNum (Js.Fin timestamp))) then (false, st)
        else
          let age := now - timestamp in
          if age >? STATE_EXPIRATION_MS
          then (false, JsMap.delete state st)
          else (true, JsMap.delete state st)
    end.

(** [cleanupExpiredStates()]: one clock reading, then every entry older
    than the window is deleted. *)
Definition cleanupExpiredStates (now : Z) (st : stateStore) : stateStore :=
  filter (fun e => negb (now - snd e >? STATE_EXPIRATION_MS)) st.

Definition getStateCount (st : stateStore) : nat := JsMap.size st.

Definition clearAllStates (st : stateStore) : stateStore := JsMap.empty.

(** The registry states the running program can be in: [uuidv4] returns
    a non-empty string and the clock reads a time after the epoch. *)
Inductive reachable : stateStore -> Prop :=
| reach_empty : reachable JsMap.empty
| reach_generate uuid now st :
    uuid <> ""%string -> 0 < now -> reachable st ->
    reachable (snd (generateState uuid now st))
| reach_validate state now st :
    reachable st -> reachable (snd (validateState state now st))
| reach_cleanup now st :
    reachable st -> reachable (cleanupExpiredStates now st)
| reach_clear st :
    reachable st -> reachable (clearAllStates st).

(** Every entry has a non-empty key and a timestamp after the epoch. *)
Definition entries_ok (st : stateStore) : Prop :=
  Forall (fun e => fst e <> "" /\ 0 < snd e) st.

End Csrf.

(* ================================================================== *)
(** ** tokenStorage.js *)

Module TokenStorage.

Import Js.

(** The [tokenData] argument of [saveToken]; a property the caller left
    out reads as [VUndefined]. *)
Module Input.
Record tokenData : Type := {
  accessToken : value;
  tokenType : value;
  expiresIn : value;
  permissions : value;
  instagramUserId : value;
  instagramAccountId : value;
  instagramUsername : value;
  pageAccessToken : value
}.
End Input.

(** The object kept in [tokenStore]. *)
Record tokenRecord : Type := {
  accessToken : value;
  tokenType : value;
  expiresAt : number;
  permissions : value;
  instagramUserId : value;
  instagramAccountId : value;
  instagramUsername : value;
  pageAccessToken : value;
  createdAt : Z
}.

(** [const tokenStore = new Map()], userId -> record. *)
Definition tokenStore : Type := JsMap.t tokenRecord.

(** [60 * 24 * 60 * 60], sixty days in seconds. *)
Definition DEFAULT_EXPIRES_IN : Z := 60 * 24 * 60 * 60.

(** [typeof tokenData.expiresIn === 'number' && tokenData.expiresIn > 0
     ? tokenData.expiresIn : 60 * 24 * 60 * 60]. *)
Definition expiresInSeconds (tokenData : Input.tokenData) : number :=
  match as_number (Input.expiresIn tokenData) with
  | Some n => if gt n (Fin 0) then n else Fin DEFAULT_EXPIRES_IN
  | None => Fin DEFAULT_EXPIRES_IN
  end.

(** [saveToken(userId, tokenData)]. The clock is read twice: [now] for
    [expiresAt], [now'] for [createdAt]. The result is
    [tokenStore.get(userId)], the object just stored. *)
Definition saveToken (now now' : Z) (userId : string)
    (tokenData : Input.tokenData) (store : tokenStore)
  : tokenRecord * tokenStore :=
  let expiresAt := add (Fin now) (mul (expiresInSeconds tokenData) (Fin 1000)) in
  let stored :=
    {| accessToken := Input.accessToken tokenData;
       tokenType := or_else (Input.tokenType tokenData) (VStr "bearer");
       expiresAt := expiresAt;
       permissions := or_else (Input.permissions tokenData) (VArr []);
       instagramUserId := Input.instagramUserId tokenData;
       instagramAccountId := or_else (Input.instagramAccountId tokenData) VNull;
       instagramUsername := or_else (Input.instagramUsername tokenData) VNull;
       pageAccessToken := or_else (Input.pageAccessToken tokenData) VNull;
       createdAt := now' |} in
  (stored, JsMap.set userId stored store).

(** [getToken(userId)]; [None] is [null]. A stored record is an object,
    hence truthy. *)
Definition getToken (now : Z) (userId : string) (store : tokenStore)
  : option tokenRecord * tokenStore :=
  match JsMap.get userId store with
  | None => (None, store)
  | Some tokenData =>
      if gt (Fin now) (expiresAt tokenData)
      then (None, JsMap.delete userId store)
      else (Some tokenData, store)
  end.

(** [deleteToken(userId)]. *)
Definition deleteToken (userId : string) (store : tokenStore)
  : bool * tokenStore :=
  (JsMap.has userId store, JsMap.delete userId store).

(** An element of the array built by [getAllTokens]:
    [{ userId, ...tokenData, isExpired }]. *)
Record tokenListing : Type := {
  userId : string;
  data : tokenRecord;
  isExpired : bool
}.

(** The loop of [getAllTokens]: the clock is read once per entry, [clock i]
    being the reading taken for the [i]-th entry. *)
Fixpoint listTokens (clock : nat -> Z) (i : nat)
    (entries : list (string * tokenRecord)) : list tokenListing :=
  match entries with
  | [] => []
  | (userId, tokenData) :: rest =>
      {| userId := userId;
         data := tokenData;
         isExpired := gt (Fin (clock i)) (expiresAt tokenData) |}
        :: listTokens clock (S i) rest
  end.

(** [getAllTokens()]; it only reads the store. *)
Definition getAllTokens (clock : nat -> Z) (store : tokenStore)
  : list tokenListing * tokenStore :=
  (listTokens clock 0%nat store, store).

Definition getTokenCount (store : tokenStore) : nat := JsMap.size store.

Definition clearAllTokens (store : tokenStore) : tokenStore := JsMap.empty.

End TokenStorage.

(* ================================================================== *)
(** ** The two process-wide stores and the background timer *)

Module Server.

(** The module-level [stateStore] and [tokenStore]. *)
Record state : Type := {
  stateStore : Csrf.stateStore;
  tokenStore : TokenStorage.tokenStore
}.

Definition initial : state :=
  {| stateStore := JsMap.empty; tokenStore := JsMap.empty |}.

(** [setInterval(cleanupExpiredStates, CLEANUP_INTERVAL_MS)], the only
    timer the program installs: one firing at clock reading [now]. *)
Definition timer (now : Z) (s : state) : state :=
  {| stateStore := Csrf.cleanupExpiredStates now (stateStore s);
     tokenStore := tokenStore s |}.

End Server.

(* ================================================================== *)
(** ** routes/auth.js *)

Module Auth.

Import Js.

(** [req.query] of the callback; a parameter is absent or a string. *)
Record query : Type := {
  code : option string;
  state : option string;
  error : option string;
  error_reason : option string;
  error_description : option string
}.

(** [ToBoolean] of a query parameter. *)
Definition present (p : option string) : bool :=
  match p with
  | Some s => truthy (VStr s)
  | None => truthy VUndefined
  end.

(** Bodies of the Graph API answers the handler reads. *)
Record tokenResponse : Type := {
  access_token : value;
  token_type : value;
  expires_in : value
}.

Record userInfo : Type := {
  id : string;
  name : value
}.

(** A page of [/me/accounts]; [instagram_business_account] is [Some i]
    when the property is an object whose [id] is [i], [None] when the
    property is missing. *)
Record page : Type := {
  page_access_token : value;
  instagram_business_account : option value
}.

Record igAccount : Type := {
  username : value
}.

(** Outcome of an [await]: the value, or the message of the [Error]
    thrown. *)
Inductive result (A : Type) : Type :=
| Ok (a : A)
| Throw (message : string).

Arguments Ok {A} a.
Arguments Throw {A} message.

(** The functions of [services/instagramOAuth.js] the handler awaits; each
    is one request to the Graph API. *)
Record upstream : Type := {
  exchangeCodeForToken : string -> result tokenResponse;
  exchangeForLongLivedToken : value -> result tokenResponse;
  getInstagramUser : value -> string -> result userInfo;
  getFacebookPages : value -> result (list page);
  getInstagramBusinessAccount : value -> value -> result igAccount
}.

(** The requests sent, in order. *)
Inductive call : Type :=
| CodeExchange (code : string)
| TokenUpgrade (shortLivedToken : value)
| IdentityLookup (accessToken : value) (fields : string)
| PagesLookup (accessToken : value)
| AccountLookup (pageAccessToken instagramAccountId : value).

(** Computations that log their requests and may throw. *)
Definition M (A : Type) : Type := list call * result A.

Definition ret {A : Type} (a : A) : M A := ([], Ok a).

Definition bind {A B : Type} (m : M A) (f : A -> M B) : M B :=
  match m with
  | (sent, Ok a) => let (sent', r) := f a in ((sent ++ sent')%list, r)
  | (sent, Throw message) => (sent, Throw message)
  end.

Definition await {A : Type} (c : call) (r : result A) : M A := ([c], r).

Notation "x <- m ;; k" := (bind m (fun x => k))
  (at level 61, m at next level, right associativity).

(** What the page loop leaves in [instagramAccountId],
    [instagramUsername] and [pageAccessToken]. *)
Record linked : Type := {
  linkedAccountId : value;
  linkedUsername : value;
  linkedPageToken : value
}.

(** [for (const page of pages) { if (page.instagram_business_account)
    { ...; break; } }]. *)
Fixpoint findInstagramAccount (up : upstream) (pages : list page) : M linked :=
  match pages with
  | [] =>
      ret {| linkedAccountId := VNull;
             linkedUsername := VNull;
             linkedPageToken := VNull |}
  | p :: rest =>
      match instagram_business_account p with
      | Some instagramAccountId =>
          let pageAccessToken := page_access_token p in
          igAccount <- await (AccountLookup pageAccessToken instagramAccountId)
                         (getInstagramBusinessAccount up pageAccessToken
                            instagramAccountId) ;;
          ret {| linkedAccountId := instagramAccountId;
                 linkedUsername := username igAccount;
                 linkedPageToken := pageAccessToken |}
      | None => findInstagramAccount up rest
      end
  end.

(** What the handler has in hand when it reaches [saveToken]. *)
Record resolved : Type := {
  resolvedUserId : string;
  resolvedTokenData : TokenStorage.Input.tokenData;
  resolvedSuccessParams : list (string * value)
}.

(** The awaited part of the handler, from [exchangeCodeForToken] to the
    arguments of [saveToken] and of the success redirect. *)
Definition resolve (up : upstream) (code : string) : M resolved :=
  shortLivedTokenData <- await (CodeExchange code)
                           (exchangeCodeForToken up code) ;;
  longLivedTokenData <- await (TokenUpgrade (access_token shortLivedTokenData))
                          (exchangeForLongLivedToken up
                             (access_token shortLivedTokenData)) ;;
  userInfo <- await (IdentityLookup (access_token longLivedTokenData) "id,name")
                (getInstagramUser up (access_token longLivedTokenData)
                   "id,name") ;;
  let userId := id userInfo in
  pages <- await (PagesLookup (access_token longLivedTokenData))
             (getFacebookPages up (access_token longLivedTokenData)) ;;
  found <- findInstagramAccount up pages ;;
  ret {| resolvedUserId := userId;
         resolvedTokenData :=
           {| TokenStorage.Input.accessToken := access_token longLivedTokenData;
              TokenStorage.Input.tokenType :=
                or_else (token_type longLivedTokenData) (VStr "bearer");
              TokenStorage.Input.expiresIn := expires_in longLivedTokenData;
              TokenStorage.Input.permissions := VArr [];
              TokenStorage.Input.instagramUserId := VStr userId;
              TokenStorage.Input.instagramAccountId := linkedAccountId found;
              TokenStorage.Input.instagramUsername := linkedUsername found;
              TokenStorage.Input.pageAccessToken := linkedPageToken found |};
         resolvedSuccessParams :=
           [ ("userId", VStr userId);
             ("instagramUsername",
               or_else (linkedUsername found) (VStr "Not connected"));
             ("instagramAccountId",
               or_else (linkedAccountId found) (VStr "none"));
             ("permissions",
               VStr "instagram_business_basic,instagram_business_manage_messages,instagram_business_manage_comments,instagram_business_content_publish");
             ("expiresIn", expires_in longLivedTokenData) ] |}.

(** [res.redirect(...)]: the error page with its encoded message, or the
    success page with the entries given to [URLSearchParams]. *)
Inductive response : Type :=
| Redirect (url : string)
| RedirectSuccess (successParams : list (string * value)).

(** [`/error.html?error=${encodeURIComponent(message)}`]. *)
Definition errorPage (message : string) : response :=
  Redirect ("/error.html?error=" ++ encodeURIComponent message).

(** Clock readings of one callback: in [validateState], then the two in
    [saveToken]. *)
Record clock : Type := {
  atValidate : Z;
  atExpiry : Z;
  atCreated : Z
}.

(** [router.get('/instagram/callback', ...)]: the redirect answered, the
    stores afterwards and the requests sent to the Graph API. The handler
    touches the stores twice, in [validateState] before the first [await]
    and in [saveToken] after the last; requests of other clients served
    in between are not part of one run. *)
Definition callback (up : upstream) (clk : clock) (q : query)
    (s : Server.state) : response * Server.state * list call :=
  if present (error q) then
    let errorMessage :=
      or_str (error_description q)
        (or_str (error_reason q) "Authorization failed") in
    (errorPage errorMessage, s, [])
  else
    match code q, state q with
    | Some code, Some state =>
        if negb (truthy (VStr code)) || negb (truthy (VStr state)) then
          (errorPage "Invalid callback parameters", s, [])
        else
          let (valid, stateStore') :=
            Csrf.validateState state (atValidate clk) (Server.stateStore s) in
          if negb valid then
            (errorPage "Security validation failed",
             {| Server.stateStore := stateStore';
                Server.tokenStore := Server.tokenStore s |},
             [])
          else
            match resolve up code with
            | (sent, Ok r) =>
                let (_, tokenStore') :=
                  TokenStorage.saveToken (atExpiry clk) (atCreated clk)
                    (resolvedUserId r) (resolvedTokenData r)
                    (Server.tokenStore s) in
                (RedirectSuccess (resolvedSuccessParams r),
                 {| Server.stateStore := stateStore';
                    Server.tokenStore := tokenStore' |},
                 sent)
            | (sent, Throw message) =>
                let errorMessage :=
                  or_str (Some message)
                    "Failed to complete Instagram connection" in
                (errorPage errorMessage,
                 {| Server.stateStore := stateStore';
                    Server.tokenStore := Server.tokenStore s |},
                 sent)
            end
    | _, _ => (errorPage "Invalid callback parameters", s, [])
    end.

(** [router.get('/instagram', ...)] up to the redirect: the state handed
    to [buildAuthorizeUrl] and the stores afterwards. *)
Definition initiate (uuid : string) (now : Z) (s : Server.state)
  : string * Server.state :=
  let (state, stateStore') :=
    Csrf.generateState uuid now (Server.stateStore s) in
  (state,
   {| Server.stateStore := stateStore';
      Server.tokenStore := Server.tokenStore s |}).

(** The Graph API answers an account lookup only when the request carries
    both an access token and an account id. *)
Definition lookup_needs_token_and_id (up : upstream) : Prop :=
  forall pageAccessToken instagramAccountId account,
    getInstagramBusinessAccount up pageAccessToken instagramAccountId
    = Ok account ->
    truthy pageAccessToken = true /\ truthy instagramAccountId = true.

(** [pageAccessToken] and [instagramAccountId] of a stored record are both
    [null] or both set. *)
Definition paired (r : TokenStorage.tokenRecord) : Prop :=
  (TokenStorage.instagramAccountId r = VNull /\
   TokenStorage.pageAccessToken r = VNull) \/
  (TokenStorage.instagramAccountId r <> VNull /\
   TokenStorage.pageAccessToken r <> VNull).

Definition all_paired (store : TokenStorage.tokenStore) : Prop :=
  Forall (fun e => paired (snd e)) store.

End Auth.

(* ================================================================== *)
(** ** Concrete data used to instantiate the properties *)

Module Samples.

Import Js TokenStorage.

(** A caller object as the callback builds it after a token upgrade. *)
Definition sampleData (expiresIn : value) : Input.tokenData :=
  {| Input.accessToken := VStr "B";
     Input.tokenType := VStr "bearer";
     Input.expiresIn := expiresIn;
     Input.permissions := VArr [];
     Input.instagramUserId := VStr "1001";
     Input.instagramAccountId := VStr "17841400000000001";
     Input.instagramUsername := VStr "shop";
     Input.pageAccessToken := VStr "P" |}.

(** A Graph API that upgrades to token ["B"] valid for 60 days, knows user
    ["1001"] and two pages, the second linked to a business account. *)
Definition sampleUpstream : Auth.upstream :=
  {| Auth.exchangeCodeForToken := fun _ =>
       Auth.Ok {| Auth.access_token := VStr "A";
                  Auth.token_type := VUndefined;
                  Auth.expires_in := VNum (Fin 3600) |};
     Auth.exchangeForLongLivedToken := fun _ =>
       Auth.Ok {| Auth.access_token := VStr "B";
                  Auth.token_type := VStr "bearer";
                  Auth.expires_in := VNum (Fin 5184000) |};
     Auth.getInstagramUser := fun _ _ =>
       Auth.Ok {| Auth.id := "1001"; Auth.name := VStr "Test User" |};
     Auth.getFacebookPages := fun _ =>
       Auth.Ok [ {| Auth.page_access_token := VStr "P0";
                    Auth.instagram_business_account := None |};
                 {| Auth.page_access_token := VStr "P1";
                    Auth.instagram_business_account :=
                      Some (VStr "17841400000000001") |} ];
     Auth.getInstagramBusinessAccount := fun pageAccessToken accountId =>
       if truthy pageAccessToken && truthy accountId
       then Auth.Ok {| Auth.username := VStr "shop" |}
       else Auth.Throw
              "Failed to get Instagram Business Account: Invalid OAuth access token" |}.

Definition sampleClock : Auth.clock :=
  {| Auth.atValidate := 1700000001000;
     Auth.atExpiry := 1700000002000;
     Auth.atCreated := 1700000002000 |}.

Definition sampleQuery (code state error : option string) : Auth.query :=
  {| Auth.code := code;
     Auth.state := state;
     Auth.error := error;
     Auth.error_reason := None;
     Auth.error_description := None |}.

End Samples.

(* ================================================================== *)
(** ** The order of the requests of the callback *)

Module AuthTrace.

(** Position of a request in the order in which the callback handler
    awaits the functions of [services/instagramOAuth.js]. *)
Definition endpoint (c : Auth.call) : nat :=
  match c with
  | Auth.CodeExchange _ => 0
  | Auth.TokenUpgrade _ => 1
  | Auth.IdentityLookup _ _ => 2
  | Auth.PagesLookup _ => 3
  | Auth.AccountLookup _ _ => 4
  end.

Definition order : list nat := [0; 1; 2; 3; 4]%nat.

(** A callback that carries a code and a state and no error parameter. *)
Definition plainQuery (code state : string) : Auth.query :=
  {| Auth.code := Some code;
     Auth.state := Some state;
     Auth.error := None;
     Auth.error_reason := None;
     Auth.error_description := None |}.

End AuthTrace.

(* ================================================================== *)
(** ** middleware/errorHandler.js *)

Module ErrorHandler.

Import Js.

(** The properties of the thrown object the handler reads. *)
Record error : Type := {
  message : value;
  statusCode : value;
  status : value;
  stack : value;
  name : value
}.

(** [res.status(status).json(body)]. *)
Record response : Type := {
  sentStatus : value;
  sentBody : value
}.

(** [errorHandler(err, req, res, next)]; [nodeEnv] is
    [oauthConfig.nodeEnv]. *)
Definition errorHandler (nodeEnv : string) (err : error) : response :=
  let statusCode := or_else (statusCode err) (or_else (status err) (VNum (Fin 500))) in
  let errorResponse :=
    [ ("error", or_else (message err) (VStr "An unexpected error occurred"));
      ("success", VBool false) ] in
  let errorResponse :=
    if (nodeEnv =? "development")%string then
      (errorResponse ++
       [ ("debug", VObj [ ("stack", stack err);
                          ("statusCode", statusCode);
                          ("name", name err) ]) ])%list
    else errorResponse in
  {| sentStatus := statusCode; sentBody := VObj errorResponse |}.

(** [notFoundHandler(req, res)]. *)
Definition notFoundHandler (method url : string) : response :=
  {| sentStatus := VNum (Fin 404);
     sentBody := VObj [ ("error", VStr "Route not found");
                        ("success", VBool false);
                        ("path", VStr url);
                        ("method", VStr method) ] |}.

(** The [Error] a function of [services/instagramOAuth.js] throws:
    [new Error(message)] sets neither [statusCode] nor [status]. *)
Definition thrown (message stack : string) : error :=
  {| message := VStr message;
     statusCode := VUndefined;
     status := VUndefined;
     stack := VStr stack;
     name := VStr "Error" |}.

End ErrorHandler.

(* ================================================================== *)
(** ** routes/api.js *)

Module Api.

Import Js.

(** [res.status(status).json(body)]; [res.json(body)] sends status 200. *)
Record response : Type := {
  status : Z;
  body : value
}.

(** How a handler ends: with a response, or in [next(error)] with the
    [Error] of the given message. *)
Inductive outcome : Type :=
| Respond (r : response)
| Next (message : string).

(** Body of a Graph API answer with a [data] member. *)
Record graphList : Type := {
  data : value;
  paging : value
}.

(** The request [getAccountInsightsWithPeriod] sends:
    [/{node}/insights] with these parameters. *)
Record insightsRequest : Type := {
  node : value;
  metric : string;
  period : string;
  access_token : value;
  metric_type : option string
}.

(** The Graph API behind the handlers modelled here. *)
Record upstream : Type := {
  getInstagramUser : value -> string -> Auth.result Auth.userInfo;
  getAccountInsights : value -> value -> Auth.result graphList;
  getInstagramStories : value -> value -> Auth.result graphList;
  axiosInsights : insightsRequest -> Auth.result graphList
}.

(** The requests a handler sent. *)
Inductive call : Type :=
| UserLookup (accessToken : value)
| InsightsLookup (instagramAccountId pageAccessToken : value)
| StoriesLookup (instagramAccountId pageAccessToken : value)
| PeriodInsightsLookup (request : insightsRequest).

Definition dayMetrics : string :=
  "reach,profile_views,website_clicks,accounts_engaged,total_interactions,likes,comments,shares,saves,replies".

Definition weekMetrics : string :=
  "reach,follower_count,profile_views,website_clicks,accounts_engaged,total_interactions,likes,comments,shares,saves,replies".

(** [getAccountInsightsWithPeriod(instagramAccountId, pageAccessToken,
    period)] of [services/instagramOAuth.js]: the requests it sent and its
    result. A [Throw] of [axiosInsights] carries
    [error.response?.data?.error?.message || error.message]. *)
Definition getAccountInsightsWithPeriod (up : upstream)
    (instagramAccountId pageAccessToken : value) (period : string)
  : list call * Auth.result graphList :=
  let metrics :=
    if (period =? "day")%string then Some dayMetrics
    else if (period =? "week")%string then Some weekMetrics
    else if (period =? "days_28")%string then Some weekMetrics
    else None in
  match metrics with
  | None =>
      ([], Auth.Throw
             ("Failed to get account insights: "
              ++ ("Invalid period: " ++ period
                  ++ ". Must be 'day', 'week', or 'days_28'")))
  | Some metrics =>
      let request :=
        {| node := instagramAccountId;
           metric := metrics;
           period := period;
           access_token := pageAccessToken;
           metric_type :=
             if (period =? "day")%string then Some "total_value" else None |} in
      match axiosInsights up request with
      | Auth.Ok d => ([PeriodInsightsLookup request], Auth.Ok d)
      | Auth.Throw m =>
          ([PeriodInsightsLookup request],
           Auth.Throw ("Failed to get account insights: " ++ m))
      end
  end.

Definition errorBody (message : string) : value :=
  VObj [ ("error", VStr message) ].

Definition missingUserId : response :=
  {| status := 400; body := errorBody "Missing required parameter: userId" |}.

Definition notConnected : response :=
  {| status := 404; body := errorBody "No Instagram Business Account connected" |}.

Section WithDate.

(** [new Date(t).toISOString()] for a time value [t] in the range of
    [Date], 8.64e15 ms either side of the epoch; outside it, and for [NaN]
    and the infinities, [toISOString] throws a [RangeError]. *)
Variable toISOString : Z -> string.

Definition dateToISOString (timestamp : number) : Auth.result string :=
  match timestamp with
  | Fin t =>
      if (Z.abs t <=? 8640000000000000) then Auth.Ok (toISOString t)
      else Auth.Throw "Invalid time value"
  | _ => Auth.Throw "Invalid time value"
  end.

(** The helper [toISOStringSafe] of [GET /api/me]. *)
Definition toISOStringSafe (timestamp : number) : string :=
  if negb (truthy (VNum timestamp))
     || match timestamp with NaN => true | _ => false end
  then "Invalid date"
  else
    match dateToISOString timestamp with
    | Auth.Ok s => s
    | Auth.Throw _ => "Invalid date"
    end.

(** [router.get('/me', ...)]; [now] is the reading of [Date.now()] in
    [getToken]. *)
Definition me (up : upstream) (now : Z) (userId : option string)
    (store : TokenStorage.tokenStore)
  : outcome * TokenStorage.tokenStore * list call :=
  match userId with
  | Some userId =>
      if negb (truthy (VStr userId)) then (Respond missingUserId, store, [])
      else
        let (tokenData, store') := TokenStorage.getToken now userId store in
        match tokenData with
        | None =>
            (Respond
               {| status := 401;
                  body := errorBody
                    "No valid token found. Please connect your Instagram account." |},
             store', [])
        | Some tokenData =>
            let sent := [UserLookup (TokenStorage.accessToken tokenData)] in
            match getInstagramUser up (TokenStorage.accessToken tokenData)
                    "id,name" with
            | Auth.Ok userInfo =>
                (Respond
                   {| status := 200;
                      body :=
                        VObj
                          [ ("success", VBool true);
                            ("user",
                              VObj [ ("id", VStr (Auth.id userInfo));
                                     ("name", Auth.name userInfo) ]);
                            ("tokenInfo",
                              VObj
                                [ ("expiresAt",
                                    VStr (toISOStringSafe
                                            (TokenStorage.expiresAt tokenData)));
                                  ("permissions",
                                    TokenStorage.permissions tokenData);
                                  ("createdAt",
                                    VStr (toISOStringSafe
                                            (Fin (TokenStorage.createdAt tokenData))));
                                  ("instagramUsername",
                                    or_else
                                      (TokenStorage.instagramUsername tokenData)
                                      (VStr "Not connected"));
                                  ("instagramAccountId",
                                    or_else
                                      (TokenStorage.instagramAccountId tokenData)
                                      (VStr "Not connected")) ]) ] |},
                 store', sent)
            | Auth.Throw message => (Next message, store', sent)
            end
        end
  | None => (Respond missingUserId, store, [])
  end.

(** One element of [tokens.map(token => ({ ... }))] in [GET /api/tokens]. *)
Definition tokenView (token : TokenStorage.tokenListing)
  : Auth.result value :=
  match dateToISOString (TokenStorage.expiresAt (TokenStorage.data token)) with
  | Auth.Throw m => Auth.Throw m
  | Auth.Ok expiresAt =>
      match dateToISOString
              (Fin (TokenStorage.createdAt (TokenStorage.data token))) with
      | Auth.Throw m => Auth.Throw m
      | Auth.Ok createdAt =>
          Auth.Ok
            (VObj
               [ ("userId", VStr (TokenStorage.userId token));
                 ("instagramUserId",
                   TokenStorage.instagramUserId (TokenStorage.data token));
                 ("permissions",
                   TokenStorage.permissions (TokenStorage.data token));
                 ("expiresAt", VStr expiresAt);
                 ("createdAt", VStr createdAt);
                 ("isExpired", VBool (TokenStorage.isExpired token)) ])
      end
  end.

(** [tokens.map(...)]: the first element that throws ends the map. *)
Fixpoint tokenViews (tokens : list TokenStorage.tokenListing)
  : Auth.result (list value) :=
  match tokens with
  | [] => Auth.Ok []
  | token :: rest =>
      match tokenView token with
      | Auth.Throw m => Auth.Throw m
      | Auth.Ok v =>
          match tokenViews rest with
          | Auth.Throw m => Auth.Throw m
          | Auth.Ok vs => Auth.Ok (v :: vs)
          end
      end
  end.

(** [router.get('/tokens', ...)]; [nodeEnv] is [oauthConfig.nodeEnv],
    [clock] the readings of [getAllTokens]. *)
Definition tokens (nodeEnv : string) (clock : nat -> Z)
    (store : TokenStorage.tokenStore)
  : response * TokenStorage.tokenStore :=
  if negb (nodeEnv =? "development")%string then
    ({| status := 403;
        body := errorBody "This endpoint is only available in development mode" |},
     store)
  else
    let (listed, store') := TokenStorage.getAllTokens clock store in
    match tokenViews listed with
    | Auth.Ok views =>
        ({| status := 200;
            body := VObj [ ("success", VBool true);
                           ("count", VNum (Fin (Z.of_nat (List.length listed))));
                           ("tokens", VArr views) ] |},
         store')
    | Auth.Throw _ =>
        ({| status := 500; body := errorBody "Failed to retrieve tokens" |},
         store')
    end.

End WithDate.

(** [router.delete('/logout', ...)]. *)
Definition logout (userId : option string) (store : TokenStorage.tokenStore)
  : response * TokenStorage.tokenStore :=
  match userId with
  | Some userId =>
      if negb (truthy (VStr userId)) then (missingUserId, store)
      else
        let (deleted, store') := TokenStorage.deleteToken userId store in
        if deleted then
          ({| status := 200;
              body := VObj [ ("success", VBool true);
                             ("message", VStr "Successfully logged out") ] |},
           store')
        else
          ({| status := 404; body := errorBody "No token found for this user" |},
           store')
  | None => (missingUserId, store)
  end.

(** The test [!tokenData || !tokenData.instagramAccountId ||
    !tokenData.pageAccessToken] of the relay handlers. *)
Definition linkedRecord (tokenData : option TokenStorage.tokenRecord)
  : option TokenStorage.tokenRecord :=
  match tokenData with
  | Some r =>
      if negb (truthy (TokenStorage.instagramAccountId r))
         || negb (truthy (TokenStorage.pageAccessToken r))
      then None else Some r
  | None => None
  end.

(** [router.get('/instagram/insights', ...)]. *)
Definition instagramInsights (up : upstream) (now : Z)
    (userId : option string) (store : TokenStorage.tokenStore)
  : outcome * TokenStorage.tokenStore * list call :=
  match userId with
  | Some userId =>
      if negb (truthy (VStr userId)) then (Respond missingUserId, store, [])
      else
        let (tokenData, store') := TokenStorage.getToken now userId store in
        match linkedRecord tokenData with
        | None => (Respond notConnected, store', [])
        | Some tokenData =>
            let instagramAccountId := TokenStorage.instagramAccountId tokenData in
            let pageAccessToken := TokenStorage.pageAccessToken tokenData in
            let sent := [InsightsLookup instagramAccountId pageAccessToken] in
            match getAccountInsights up instagramAccountId pageAccessToken with
            | Auth.Ok insights =>
                (Respond {| status := 200;
                            body := VObj [ ("success", VBool true);
                                           ("insights", data insights) ] |},
                 store', sent)
            | Auth.Throw message => (Next message, store', sent)
            end
        end
  | None => (Respond missingUserId, store, [])
  end.

(** [router.get('/instagram/stories', ...)]. *)
Definition instagramStories (up : upstream) (now : Z)
    (userId : option string) (store : TokenStorage.tokenStore)
  : outcome * TokenStorage.tokenStore * list call :=
  match userId with
  | Some userId =>
      if negb (truthy (VStr userId)) then (Respond missingUserId, store, [])
      else
        let (tokenData, store') := TokenStorage.getToken now userId store in
        match linkedRecord tokenData with
        | None => (Respond notConnected, store', [])
        | Some tokenData =>
            let instagramAccountId := TokenStorage.instagramAccountId tokenData in
            let pageAccessToken := TokenStorage.pageAccessToken tokenData in
            let sent := [StoriesLookup instagramAccountId pageAccessToken] in
            match getInstagramStories up instagramAccountId pageAccessToken with
            | Auth.Ok stories =>
                (Respond {| status := 200;
                            body := VObj [ ("success", VBool true);
                                           ("stories",
                                             or_else (data stories) (VArr [])) ] |},
                 store', sent)
            | Auth.Throw message => (Next message, store', sent)
            end
        end
  | None => (Respond missingUserId, store, [])
  end.

(** [router.get('/instagram/insights/period', ...)]; a missing [period]
    takes the default ['day'] of the destructuring. *)
Definition instagramInsightsPeriod (up : upstream) (now : Z)
    (userId period : option string) (store : TokenStorage.tokenStore)
  : outcome * TokenStorage.tokenStore * list call :=
  let period := match period with Some p => p | None => "day" end in
  match userId with
  | Some userId =>
      if negb (truthy (VStr userId)) then (Respond missingUserId, store, [])
      else if negb (existsb (String.eqb period) ["day"; "week"; "days_28"]) then
        (Respond {| status := 400;
                    body := errorBody
                      "Invalid period. Must be: day, week, or days_28" |},
         store, [])
      else
        let (tokenData, store') := TokenStorage.getToken now userId store in
        match linkedRecord tokenData with
        | None => (Respond notConnected, store', [])
        | Some tokenData =>
            match getAccountInsightsWithPeriod up
                    (TokenStorage.instagramAccountId tokenData)
                    (TokenStorage.pageAccessToken tokenData) period with
            | (sent, Auth.Ok insights) =>
                (Respond {| status := 200;
                            body := VObj [ ("success", VBool true);
                                           ("period", VStr period);
                                           ("insights",
                                             or_else (data insights) (VArr [])) ] |},
                 store', sent)
            | (sent, Auth.Throw message) => (Next message, store', sent)
            end
        end
  | None => (Respond missingUserId, store, [])
  end.

(** A record with the two credentials blanked. *)
Definition withoutSecrets (r : TokenStorage.tokenRecord)
  : TokenStorage.tokenRecord :=
  {| TokenStorage.accessToken := VNull;
     TokenStorage.tokenType := TokenStorage.tokenType r;
     TokenStorage.expiresAt := TokenStorage.expiresAt r;
     TokenStorage.permissions := TokenStorage.permissions r;
     TokenStorage.instagramUserId := TokenStorage.instagramUserId r;
     TokenStorage.instagramAccountId := TokenStorage.instagramAccountId r;
     TokenStorage.instagramUsername := TokenStorage.instagramUsername r;
     TokenStorage.pageAccessToken := VNull;
     TokenStorage.createdAt := TokenStorage.createdAt r |}.

(** What a relay handler has established when it sends its request. *)
Definition relayed (now : Z) (userId : option string)
    (store store' : TokenStorage.tokenStore) (r : TokenStorage.tokenRecord)
  : Prop :=
  exists u, userId = Some u /\ u <> "" /\
    JsMap.get u store = Some r /\
    gt (Fin now) (TokenStorage.expiresAt r) = false /\
    truthy (TokenStorage.instagramAccountId r) = true /\
    truthy (TokenStorage.pageAccessToken r) = true /\
    store' = store.

End Api.

(* ================================================================== *)
(** ** [URLSearchParams] and strings *)

Module Url.

(** Bytes the [application/x-www-form-urlencoded] serializer leaves as
    they are: letters, digits and [* - . _]. *)
Definition formSafe (c : ascii) : bool :=
  let n := nat_of_ascii c in
  ((65 <=? n) && (n <=? 90) || (97 <=? n) && (n <=? 122)
   || (48 <=? n) && (n <=? 57)
   || (n =? 42) || (n =? 45) || (n =? 46) || (n =? 95))%nat.

(** Serialization of one name or value: a space becomes [+], every other
    byte outside [formSafe] becomes [%XX]. *)
Fixpoint formEncode (s : string) : string :=
  match s with
  | EmptyString => EmptyString
  | String c rest =>
      if formSafe c then String c (formEncode rest)
      else if (nat_of_ascii c =? 32)%nat then String "+" (formEncode rest)
      else
        let n := nat_of_ascii c in
        String "%" (String (Js.hex_digit (n / 16))
                      (String (Js.hex_digit (n mod 16))
                         (formEncode rest)))
  end.

(** [Array.prototype.join(separator)] on strings. *)
Fixpoint join (separator : string) (parts : list string) : string :=
  match parts with
  | [] => ""
  | [part] => part
  | part :: rest => part ++ separator ++ join separator rest
  end.

(** [new URLSearchParams({...}).toString()] for string values. *)
Definition toString (params : list (string * string)) : string :=
  join "&" (map (fun p => formEncode (fst p) ++ "=" ++ formEncode (snd p))
              params).

(** [s.split(',')]. *)
Fixpoint splitComma (s : string) : list string :=
  match s with
  | EmptyString => [""]
  | String c rest =>
      if (nat_of_ascii c =? 44)%nat then "" :: splitComma rest
      else
        match splitComma rest with
        | part :: parts => String c part :: parts
        | [] => [String c ""]
        end
  end.

(** White space and line terminators of one byte: TAB, LF, VT, FF, CR and
    space. *)
Definition space1 (c : ascii) : bool :=
  let n := nat_of_ascii c in
  ((9 <=? n) && (n <=? 13) || (n =? 32))%nat.

(** U+00A0 in UTF-8. *)
Definition space2 (c1 c2 : ascii) : bool :=
  ((nat_of_ascii c1 =? 194) && (nat_of_ascii c2 =? 160))%nat.

(** U+1680, U+2000 to U+200A, U+2028, U+2029, U+202F, U+205F, U+3000 and
    U+FEFF in UTF-8. *)
Definition space3 (c1 c2 c3 : ascii) : bool :=
  let a := nat_of_ascii c1 in
  let b := nat_of_ascii c2 in
  let c := nat_of_ascii c3 in
  ((a =? 225) && (b =? 154) && (c =? 128)
   || (a =? 226) && (b =? 128)
      && ((128 <=? c) && (c <=? 138) || (c =? 168) || (c =? 169) || (c =? 175))
   || (a =? 226) && (b =? 129) && (c =? 159)
   || (a =? 227) && (b =? 128) && (c =? 128)
   || (a =? 239) && (b =? 187) && (c =? 191))%nat.

(** [trimStart] on the bytes of a string. *)
Fixpoint trimStartBytes (l : list ascii) : list ascii :=
  match l with
  | [] => []
  | c1 :: r1 =>
      if space1 c1 then trimStartBytes r1
      else
        match r1 with
        | [] => l
        | c2 :: r2 =>
            if space2 c1 c2 then trimStartBytes r2
            else
              match r2 with
              | [] => l
              | c3 :: r3 => if space3 c1 c2 c3 then trimStartBytes r3 else l
              end
        end
  end.

(** The same from the end, on the reversed bytes. *)
Fixpoint trimEndReversed (l : list ascii) : list ascii :=
  match l with
  | [] => []
  | c1 :: r1 =>
      if space1 c1 then trimEndReversed r1
      else
        match r1 with
        | [] => l
        | c2 :: r2 =>
            if space2 c2 c1 then trimEndReversed r2
            else
              match r2 with
              | [] => l
              | c3 :: r3 => if space3 c3 c2 c1 then trimEndReversed r3 else l
              end
        end
  end.

(** [s.trim()]. *)
Definition trim (s : string) : string :=
  string_of_list_ascii
    (rev (trimEndReversed (rev (trimStartBytes (list_ascii_of_string s))))).

End Url.

(* ================================================================== *)
(** ** config/oauth.js *)

Module OAuthConfig.

Import Js.

Definition FB_API_VERSION : string := "v21.0".

Definition FACEBOOK_AUTHORIZE_URL : string :=
  "https://www.facebook.com/" ++ FB_API_VERSION ++ "/dialog/oauth".

Definition FACEBOOK_TOKEN_URL : string :=
  "https://graph.facebook.com/" ++ FB_API_VERSION ++ "/oauth/access_token".

Definition FACEBOOK_GRAPH_API_URL : string := "https://graph.facebook.com".

Definition INSTAGRAM_GRAPH_API_URL : string := "https://graph.instagram.com".

Definition FACEBOOK_LONG_LIVED_TOKEN_URL : string :=
  FACEBOOK_GRAPH_API_URL ++ "/" ++ FB_API_VERSION ++ "/oauth/access_token".

Definition INSTAGRAM_REFRESH_TOKEN_URL : string :=
  INSTAGRAM_GRAPH_API_URL ++ "/refresh_access_token".

Definition requiredEnvVars : list string :=
  [ "INSTAGRAM_APP_ID"; "INSTAGRAM_APP_SECRET"; "INSTAGRAM_REDIRECT_URI";
    "INSTAGRAM_SCOPES" ].

(** [process.env]: a variable is a string or is not set. *)
Definition env : Type := JsMap.t string.

Record oauthConfig : Type := {
  appId : string;
  appSecret : string;
  redirectUri : string;
  scopes : list string;
  authorizeUrl : string;
  tokenUrl : string;
  longLivedTokenUrl : string;
  refreshTokenUrl : string;
  graphApiUrl : string;
  instagramGraphApiUrl : string;
  port : value;
  nodeEnv : string
}.

(** The loop over [requiredEnvVars]: the first variable that is not set or
    empty. *)
Fixpoint firstMissing (vars : list string) (e : env) : option string :=
  match vars with
  | [] => None
  | envVar :: rest =>
      if negb (Auth.present (JsMap.get envVar e)) then Some envVar
      else firstMissing rest e
  end.

(** What a variable known to be set reads as. *)
Definition read (envVar : string) (e : env) : string :=
  match JsMap.get envVar e with Some s => s | None => "" end.

(** The module body: it throws for a missing variable, else
    [module.exports] is the configuration. *)
Definition load (e : env) : Auth.result oauthConfig :=
  match firstMissing requiredEnvVars e with
  | Some envVar =>
      Auth.Throw ("Missing required environment variable: " ++ envVar)
  | None =>
      Auth.Ok
        {| appId := read "INSTAGRAM_APP_ID" e;
           appSecret := read "INSTAGRAM_APP_SECRET" e;
           redirectUri := read "INSTAGRAM_REDIRECT_URI" e;
           scopes := map Url.trim (Url.splitComma (read "INSTAGRAM_SCOPES" e));
           authorizeUrl := FACEBOOK_AUTHORIZE_URL;
           tokenUrl := FACEBOOK_TOKEN_URL;
           longLivedTokenUrl := FACEBOOK_LONG_LIVED_TOKEN_URL;
           refreshTokenUrl := INSTAGRAM_REFRESH_TOKEN_URL;
           graphApiUrl := FACEBOOK_GRAPH_API_URL;
           instagramGraphApiUrl := INSTAGRAM_GRAPH_API_URL;
           port :=
             match JsMap.get "PORT" e with
             | Some p => or_else (VStr p) (VNum (Fin 3000))
             | None => VNum (Fin 3000)
             end;
           nodeEnv := or_str (JsMap.get "NODE_ENV" e) "development" |}
  end.

End OAuthConfig.

(* ================================================================== *)
(** ** services/instagramOAuth.js, [buildAuthorizeUrl], and the route that
       starts the flow *)

Module AuthStart.

(** [buildAuthorizeUrl(state)]. *)
Definition buildAuthorizeUrl (cfg : OAuthConfig.oauthConfig) (state : string)
  : string :=
  let params :=
    Url.toString
      [ ("client_id", OAuthConfig.appId cfg);
        ("redirect_uri", OAuthConfig.redirectUri cfg);
        ("scope", Url.join "," (OAuthConfig.scopes cfg));
        ("response_type", "code");
        ("state", state) ] in
  OAuthConfig.authorizeUrl cfg ++ "?" ++ params.

(** [router.get('/instagram', ...)]: the redirect and the stores
    afterwards. Neither [generateState] nor [buildAuthorizeUrl] throws, so
    the [catch] branch of the handler is not taken. *)
Definition instagram (cfg : OAuthConfig.oauthConfig) (uuid : string)
    (now : Z) (s : Server.state) : Auth.response * Server.state :=
  let (state, stateStore') :=
    Csrf.generateState uuid now (Server.stateStore s) in
  let authorizeUrl := buildAuthorizeUrl cfg state in
  (Auth.Redirect authorizeUrl,
   {| Server.stateStore := stateStore';
      Server.tokenStore := Server.tokenStore s |}).

End AuthStart.

(* ================================================================== *)
(** ** Concrete data for the API routes *)

Module ApiSamples.

Import Js.

(** A Graph API that answers every request of the API routes. *)
Definition sampleApi : Api.upstream :=
  {| Api.getInstagramUser := fun _ _ =>
       Auth.Ok {| Auth.id := "1001"; Auth.name := VStr "Test User" |};
     Api.getAccountInsights := fun _ _ =>
       Auth.Ok {| Api.data := VArr []; Api.paging := VUndefined |};
     Api.getInstagramStories := fun _ _ =>
       Auth.Ok {| Api.data := VUndefined; Api.paging := VUndefined |};
     Api.axiosInsights := fun _ =>
       Auth.Ok {| Api.data := VArr []; Api.paging := VUndefined |} |}.

(** The store after user ["1001"] connected at 1700000000000 for an hour. *)
Definition connectedStore : TokenStorage.tokenStore :=
  snd (TokenStorage.saveToken 1700000000000 1700000000000 "1001"
         (Samples.sampleData (VNum (Fin 3600))) JsMap.empty).

(** A stand-in for the rendering of [toISOString]. *)
Definition sampleISO (t : Z) : string := "2023-11-14T22:13:20.000Z".

(** An environment with the four required variables and nothing else. *)
Definition sampleEnv : OAuthConfig.env :=
  [ ("INSTAGRAM_APP_ID", "1234567890");
    ("INSTAGRAM_APP_SECRET", "0123456789abcdef");
    ("INSTAGRAM_REDIRECT_URI", "http://localhost:3000/auth/instagram/callback");
    ("INSTAGRAM_SCOPES", "instagram_basic,pages_show_list") ].

Definition sampleConfig : OAuthConfig.oauthConfig :=
  {| OAuthConfig.appId := "1234567890";
     OAuthConfig.appSecret := "0123456789abcdef";
     OAuthConfig.redirectUri := "http://localhost:3000/auth/instagram/callback";
     OAuthConfig.scopes := ["instagram_basic"; "pages_show_list"];
     OAuthConfig.authorizeUrl := OAuthConfig.FACEBOOK_AUTHORIZE_URL;
     OAuthConfig.tokenUrl := OAuthConfig.FACEBOOK_TOKEN_URL;
     OAuthConfig.longLivedTokenUrl := OAuthConfig.FACEBOOK_LONG_LIVED_TOKEN_URL;
     OAuthConfig.refreshTokenUrl := OAuthConfig.INSTAGRAM_REFRESH_TOKEN_URL;
     OAuthConfig.graphApiUrl := OAuthConfig.FACEBOOK_GRAPH_API_URL;
     OAuthConfig.instagramGraphApiUrl := OAuthConfig.INSTAGRAM_GRAPH_API_URL;
     OAuthConfig.port := VNum (Fin 3000);
     OAuthConfig.nodeEnv := "development" |}.

End ApiSamples.

(* ================================================================== *)
(** ** Ranges of numbers and a Graph API that answers without a token *)

Module JsRange.

Import Js.

(** [Number.MAX_SAFE_INTEGER], 2^53 - 1: sums and products of integers
    are exact in a double as long as operands and result stay within it. *)
Definition MAX_SAFE_INTEGER : Z := 9007199254740991.

(** The largest time value of a [Date], 8.64e15 ms. *)
Definition MAX_TIME_VALUE : Z := 8640000000000000.

(** What [Date.now()] can read: a time value at or after the epoch. *)
Definition timeValue (t : Z) : Prop := 0 <= t <= MAX_TIME_VALUE.

(** A Graph API that lists one page with a linked business account but
    without [access_token], and answers the account lookup all the same. *)
Definition tokenlessUpstream : Auth.upstream :=
  {| Auth.exchangeCodeForToken := Auth.exchangeCodeForToken Samples.sampleUpstream;
     Auth.exchangeForLongLivedToken :=
       Auth.exchangeForLongLivedToken Samples.sampleUpstream;
     Auth.getInstagramUser := Auth.getInstagramUser Samples.sampleUpstream;
     Auth.getFacebookPages := fun _ =>
       Auth.Ok [ {| Auth.page_access_token := VUndefined;
                    Auth.instagram_business_account :=
                      Some (VStr "17841400000000001") |} ];
     Auth.getInstagramBusinessAccount := fun _ _ =>
       Auth.Ok {| Auth.username := VStr "shop" |} |}.

End JsRange.

(* ================================================================== *)
(** * Properties *)

(** ** Facts about [JsMap] *)

Module JsMapFacts.

Import JsMap.

Section Facts.
Context {V : Type}.
Implicit Types (m : JsMap.t V) (k : string) (v : V).

Lemma get_set_same k v m : get k (set k v m) = Some v.
Proof.
  induction m as [|[k' v'] m IH]; simpl.
  - now rewrite String.eqb_refl.
  - destruct (String.eqb_spec k k') as [->|Hne]; simpl.
    + now rewrite String.eqb_refl.
    + apply String.eqb_neq in Hne. now rewrite Hne.
Qed.

Lemma get_set_other k k' v m : k <> k' -> get k' (set k v m) = get k' m.
Proof.
  intros Hne. induction m as [|[k0 v0] m IH]; simpl.
  - destruct (String.eqb_spec k' k); congruence.
  - destruct (String.eqb_spec k k0) as [->|Hk]; simpl.
    + destruct (String.eqb_spec k' k0); congruence.
    + now rewrite IH.
Qed.

Lemma get_delete_same k m : get k (delete k m) = None.
Proof.
  induction m as [|[k' v'] m IH]; simpl; [reflexivity|].
  destruct (String.eqb_spec k k') as [->|Hne]; simpl; [exact IH|].
  apply String.eqb_neq in Hne. now rewrite Hne.
Qed.

Lemma get_delete_other k k' m : k <> k' -> get k' (delete k m) = get k' m.
Proof.
  intros Hne. induction m as [|[k0 v0] m IH]; simpl; [reflexivity|].
  destruct (String.eqb_spec k k0) as [->|Hk]; simpl.
  - rewrite IH. destruct (String.eqb_spec k' k0); congruence.
  - now rewrite IH.
Qed.

Lemma get_Some_In k v m : get k m = Some v -> In (k, v) m.
Proof.
  induction m as [|[k' v'] m IH]; simpl; [discriminate|].
  destruct (String.eqb_spec k k') as [->|Hne].
  - intros [= ->]. now left.
  - intros H. right; auto.
Qed.

Lemma get_None_keys k m : get k m = None <-> ~ In k (keys m).
Proof.
  induction m as [|[k' v'] m IH]; simpl.
  - tauto.
  - destruct (String.eqb_spec k k') as [->|Hne].
    + split; [discriminate | intros H; exfalso; apply H; now left].
    + rewrite IH. split; [intros H [E|I]; congruence || auto | tauto].
Qed.

Lemma has_keys k m : has k m = true <-> In k (keys m).
Proof.
  unfold has, keys. rewrite existsb_exists, in_map_iff. split.
  - intros [e [He Hk]]. apply String.eqb_eq in Hk. now exists e.
  - intros [e [Hk He]]. exists e. split; [exact He|]. now apply String.eqb_eq.
Qed.

Lemma keys_delete k m : ~ In k (keys (delete k m)).
Proof. apply get_None_keys, get_delete_same. Qed.

Lemma has_delete k m : has k (delete k m) = false.
Proof.
  destruct (has k (delete k m)) eqn:E; [|reflexivity].
  apply has_keys in E. now apply keys_delete in E.
Qed.

Lemma In_delete k e m : In e (delete k m) <-> In e m /\ fst e <> k.
Proof.
  unfold delete. rewrite filter_In. split; intros [H1 H2]; split; auto.
  - apply negb_true_iff, String.eqb_neq in H2. congruence.
  - apply negb_true_iff, String.eqb_neq. congruence.
Qed.


Lemma In_keys_set k k' v m : In k' (keys (set k v m)) <-> k' = k \/ In k' (keys m).
Proof.
  induction m as [|[k0 v0] m IH]; simpl.
  - intuition.
  - destruct (String.eqb_spec k k0) as [->|Hne]; simpl.
    + intuition.
    + rewrite IH. intuition.
Qed.

Lemma wf_set k v m : wf m -> wf (set k v m).
Proof.
  unfold wf. induction m as [|[k0 v0] m IH]; simpl; intros H.
  - constructor; [intros []|constructor].
  - inversion H as [|? ? Hnotin Hnd]; subst.
    destruct (String.eqb_spec k k0) as [->|Hne]; simpl.
    + now constructor.
    + constructor; [|now apply IH].
      intros Hin. apply (In_keys_set k k0 v m) in Hin.
      destruct Hin; congruence.
Qed.

Lemma wf_filter (f : string * V -> bool) m : wf m -> wf (filter f m).
Proof.
  unfold wf, keys. induction m as [|e m IH]; simpl; intros H; [constructor|].
  inversion H as [|? ? Hnotin Hnd]; subst.
  destruct (f e); simpl; [|now apply IH].
  constructor; [|now apply IH].
  intros Hin. apply Hnotin. apply in_map_iff in Hin.
  destruct Hin as [e' [He' Hin]]. apply filter_In in Hin.
  apply in_map_iff. exists e'. tauto.
Qed.

Lemma wf_delete k m : wf m -> wf (delete k m).
Proof. apply wf_filter. Qed.

Lemma count_notin k m : ~ In k (keys m) -> count k m = 0%nat.
Proof.
  unfold count. induction m as [|[k0 v0] m IH]; simpl; intros H; [reflexivity|].
  destruct (String.eqb_spec k k0) as [->|Hne]; simpl.
  - exfalso. apply H. now left.
  - apply IH. intros Hin. apply H. now right.
Qed.


Lemma count_delete k m : count k (delete k m) = 0%nat.
Proof. apply count_notin, keys_delete. Qed.

End Facts.

End JsMapFacts.

(* ================================================================== *)
(** ** The CSRF state registry *)

Module CsrfFacts.

Import Csrf JsMapFacts.

Lemma STATE_EXPIRATION_MS_value : STATE_EXPIRATION_MS = 600000.
Proof. reflexivity. Qed.

Lemma truthy_state (s : string) : Js.truthy (Js.VStr s) = true <-> s <> "".
Proof.
  simpl. rewrite negb_true_iff. apply String.eqb_neq.
Qed.

Lemma truthy_timestamp (ts : Z) :
  Js.truthy (Js.VNum (Js.Fin ts)) = true <-> ts <> 0.
Proof.
  simpl. rewrite negb_true_iff. apply Z.eqb_neq.
Qed.

(** How a call on a well-formed entry ends, by the age of the entry. *)
Lemma validateState_found state ts now st :
  state <> "" -> ts <> 0 -> JsMap.get state st = Some ts ->
  validateState state now st =
    (negb (now - ts >? STATE_EXPIRATION_MS), JsMap.delete state st).
Proof.
  intros Hs Hts Hget. unfold validateState.
  apply truthy_state in Hs. apply truthy_timestamp in Hts.
  rewrite Hs, Hget, Hts. simpl negb.
  now destruct (now - ts >? STATE_EXPIRATION_MS).
Qed.

(** A token the registry does not hold is refused and nothing changes. *)
Lemma validateState_absent state now st :
  JsMap.get state st = None -> validateState state now st = (false, st).
Proof.
  intros Hget. unfold validateState. rewrite Hget.
  now destruct (negb (Js.truthy (Js.VStr state))).
Qed.

(** [validateState] only ever removes the entry of its argument. *)
Lemma validateState_store state now st :
  snd (validateState state now st) = st \/
  snd (validateState state now st) = JsMap.delete state st.
Proof.
  unfold validateState.
  destruct (negb (Js.truthy (Js.VStr state))); [now left|].
  destruct (JsMap.get state st) as [ts|]; [|now left].
  destruct (negb (Js.truthy (Js.VNum (Js.Fin ts)))); [now left|].
  simpl. destruct (now - ts >? STATE_EXPIRATION_MS); now right.
Qed.

(** A [true] answer comes from a live entry, which is consumed. *)
Lemma validateState_true state now st st' :
  validateState state now st = (true, st') ->
  exists ts, JsMap.get state st = Some ts /\
             now - ts <= STATE_EXPIRATION_MS /\
             st' = JsMap.delete state st.
Proof.
  unfold validateState.
  destruct (negb (Js.truthy (Js.VStr state))); [discriminate|].
  destruct (JsMap.get state st) as [ts|]; [|discriminate].
  destruct (negb (Js.truthy (Js.VNum (Js.Fin ts)))); [discriminate|].
  simpl. destruct (now - ts >? STATE_EXPIRATION_MS) eqn:E; [discriminate|].
  intros [= <-]. exists ts. repeat split. lia.
Qed.

Lemma entries_ok_set k ts st :
  k <> "" -> 0 < ts -> entries_ok st -> entries_ok (JsMap.set k ts st).
Proof.
  intros Hk Hts. unfold entries_ok.
  induction st as [|[k' ts'] st IH]; simpl; intros H.
  - repeat constructor; simpl; auto.
  - inversion H; subst.
    destruct (k =? k')%string; constructor; simpl; auto.
Qed.

Lemma entries_ok_filter (f : string * Z -> bool) st :
  entries_ok st -> entries_ok (filter f st).
Proof.
  unfold entries_ok. rewrite !Forall_forall.
  intros H e He. apply filter_In in He. now apply H.
Qed.

(** The invariant of the running registry: no key twice, no empty key, no
    timestamp at or before the epoch. *)
Lemma reachable_invariant st :
  reachable st -> JsMap.wf st /\ entries_ok st.
Proof.
  induction 1 as [|uuid now st Hu Hn _ [IHw IHe]
                  |state now st _ [IHw IHe]
                  |now st _ [IHw IHe]
                  |st _ _].
  - split; constructor.
  - split; [now apply wf_set | now apply entries_ok_set].
  - destruct (validateState_store state now st) as [-> | ->].
    + now split.
    + split; [now apply wf_delete | now apply entries_ok_filter].
  - split; [now apply wf_filter | now apply entries_ok_filter].
  - split; constructor.
Qed.

Lemma reachable_entry st state ts :
  reachable st -> JsMap.get state st = Some ts -> state <> "" /\ 0 < ts.
Proof.
  intros Hr Hget. apply reachable_invariant in Hr. destruct Hr as [_ Hok].
  apply get_Some_In in Hget. unfold entries_ok in Hok.
  rewrite Forall_forall in Hok. exact (Hok _ Hget).
Qed.

(** Why the clock must not read the epoch itself: [!timestamp] takes an
    entry stamped 0 for a missing one, so such an entry is refused and
    kept. *)
Remark validateState_entry_stamped_zero state now st :
  JsMap.get state st = Some 0 -> validateState state now st = (false, st).
Proof.
  intros Hget. unfold validateState. rewrite Hget.
  now destruct (negb (Js.truthy (Js.VStr state))).
Qed.

(** C1. A token returned by [generateState] is accepted by a
    [validateState] that follows within the validity window, and the same
    token is refused by the next [validateState], whenever that one comes:
    validation consumes the entry. [uuidv4] returns a non-empty string and
    the clock is not at the epoch itself. *)
Theorem issued_token_validates_exactly_once
    (uuid : string) (now now' now'' : Z) (st : stateStore) :
  uuid <> "" -> now <> 0 -> now' - now <= STATE_EXPIRATION_MS ->
  let (t, st1) := generateState uuid now st in
  let (first, st2) := validateState t now' st1 in
  let (second, st3) := validateState t now'' st2 in
  first = true /\ second = false /\ JsMap.get t st3 = None.
Proof.
  intros Hu Hn Hage. unfold generateState.
  rewrite (validateState_found uuid now now' _ Hu Hn (get_set_same _ _ _)).
  rewrite (validateState_absent uuid now'' _ (get_delete_same _ _)).
  repeat split.
  - apply negb_true_iff. rewrite Z.gtb_ltb. apply Z.ltb_ge. exact Hage.
  - apply get_delete_same.
Qed.

Lemma issued_token_validates_exactly_once_witness :
  let (t, st1) :=
    generateState "7d444840-9dc0-41d1-b245-5ffdce74fad2" 1700000000000 [] in
  let (first, st2) := validateState t 1700000000005 st1 in
  let (second, st3) := validateState t 1700000000006 st2 in
  first = true /\ second = false /\ JsMap.get t st3 = None.
Proof.
  apply (issued_token_validates_exactly_once
           "7d444840-9dc0-41d1-b245-5ffdce74fad2"
           1700000000000 1700000000005 1700000000006 []).
  - discriminate.
  - discriminate.
  - vm_compute. discriminate.
Defined.

(** C4. For a token held by the registry of the running program, a
    [validateState] that comes after the ten-minute window answers [false]
    and leaves no entry for the token: the expired path deletes it too. *)
Theorem expired_token_is_refused_and_removed
    (st : stateStore) (t : string) (ts now : Z) :
  reachable st ->
  JsMap.get t st = Some ts ->
  now - ts > STATE_EXPIRATION_MS ->
  fst (validateState t now st) = false /\
  JsMap.get t (snd (validateState t now st)) = None /\
  JsMap.has t (snd (validateState t now st)) = false /\
  snd (validateState t now st) = JsMap.delete t st.
Proof.
  intros Hr Hget Hage.
  destruct (reachable_entry st t ts Hr Hget) as [Ht Hts].
  rewrite (validateState_found t ts now st Ht) by (lia || assumption).
  simpl. repeat split.
  - apply negb_false_iff. rewrite Z.gtb_ltb. apply Z.ltb_lt. lia.
  - apply get_delete_same.
  - apply has_delete.
Qed.

Lemma expired_token_is_refused_and_removed_witness :
  let st := snd (generateState "s1" 1700000000000 JsMap.empty) in
  fst (validateState "s1" 1700000600001 st) = false /\
  JsMap.get "s1" (snd (validateState "s1" 1700000600001 st)) = None /\
  JsMap.has "s1" (snd (validateState "s1" 1700000600001 st)) = false /\
  snd (validateState "s1" 1700000600001 st) = JsMap.delete "s1" st.
Proof.
  apply (expired_token_is_refused_and_removed
           (snd (generateState "s1" 1700000000000 JsMap.empty))
           "s1" 1700000000000 1700000600001).
  - apply reach_generate; [discriminate | lia | apply reach_empty].
  - reflexivity.
  - vm_compute. reflexivity.
Defined.

(** C9. [validateState("")] answers [false]; so does [validateState] on
    ["unknown"], and on any other token the registry does not hold. Neither
    call changes the registry. The function has a result on every string:
    it has no path that throws. *)
Theorem validate_empty_or_unknown_is_false (now : Z) (st : stateStore) :
  validateState "" now st = (false, st) /\
  (JsMap.get "unknown" st = None ->
   validateState "unknown" now st = (false, st)) /\
  (forall state, JsMap.get state st = None ->
                 validateState state now st = (false, st)) /\
  (forall state, exists valid st',
      validateState state now st = (valid, st')).
Proof.
  split; [reflexivity|].
  split; [apply validateState_absent|].
  split; [intros state; apply validateState_absent|].
  - intros state. destruct (validateState state now st) as [valid st'].
    now exists valid, st'.
Qed.

Lemma validate_empty_or_unknown_is_false_witness :
  let st := snd (generateState "s1" 1699999999000 JsMap.empty) in
  JsMap.get "unknown" st = None /\
  validateState "unknown" 1700000000000 st = (false, st).
Proof.
  split; [reflexivity|].
  apply (proj1 (proj2 (validate_empty_or_unknown_is_false 1700000000000
           (snd (generateState "s1" 1699999999000 JsMap.empty))))).
  reflexivity.
Defined.

End CsrfFacts.

(* ================================================================== *)
(** ** The token store *)

Module TokenStorageFacts.

Import Js TokenStorage JsMapFacts Samples.

Lemma DEFAULT_EXPIRES_IN_value : DEFAULT_EXPIRES_IN = 5184000.
Proof. reflexivity. Qed.

Lemma or_else_truthy (a b : value) : truthy a = true -> or_else a b = a.
Proof. intros H. unfold or_else. now rewrite H. Qed.

Lemma or_else_falsy (a b : value) : truthy a = false -> or_else a b = b.
Proof. intros H. unfold or_else. now rewrite H. Qed.

(** Every operation of the module keeps the store free of repeated keys. *)
Lemma saveToken_wf now now' userId td store :
  JsMap.wf store -> JsMap.wf (snd (saveToken now now' userId td store)).
Proof. intros H. unfold saveToken. cbn [snd]. now apply wf_set. Qed.

Lemma getToken_wf now userId store :
  JsMap.wf store -> JsMap.wf (snd (getToken now userId store)).
Proof.
  intros H. unfold getToken.
  destruct (JsMap.get userId store) as [r|]; [|exact H].
  destruct (gt (Fin now) (expiresAt r)); [now apply wf_delete | exact H].
Qed.

Lemma deleteToken_wf userId store :
  JsMap.wf store -> JsMap.wf (snd (deleteToken userId store)).
Proof. intros H. unfold deleteToken. cbn [snd]. now apply wf_delete. Qed.

(** [deleteToken] answers whether a record was there, and none is left. *)
Lemma deleteToken_then_getToken now userId store :
  let (deleted, store1) := deleteToken userId store in
  (deleted = true <-> JsMap.get userId store <> None) /\
  getToken now userId store1 = (None, store1).
Proof.
  unfold deleteToken. split.
  - rewrite has_keys. split.
    + intros Hin Hnone. now apply get_None_keys in Hnone.
    + intros Hsome. destruct (in_dec string_dec userId (JsMap.keys store))
        as [Hin|Hnot]; [exact Hin|].
      exfalso. apply Hsome. now apply get_None_keys.
  - unfold getToken. now rewrite get_delete_same.
Qed.

(** The three ways [expiresInSeconds] can come out. *)
Lemma expiresInSeconds_cases (td : Input.tokenData) :
  (exists z, Input.expiresIn td = VNum (Fin z) /\ 0 < z /\
             expiresInSeconds td = Fin z) \/
  (Input.expiresIn td = VNum (Inf false) /\
   expiresInSeconds td = Inf false) \/
  ((forall n, Input.expiresIn td = VNum n -> gt n (Fin 0) = false) /\
   expiresInSeconds td = Fin DEFAULT_EXPIRES_IN).
Proof.
  unfold expiresInSeconds.
  destruct (Input.expiresIn td) as [| |b|[|[|]|z]|s|items|props]; simpl;
    try (right; right; split; [intros n [=]; subst; reflexivity
                              || (intros n; discriminate) | reflexivity]).
  - right; left. now split.
  - destruct (z >? 0) eqn:E.
    + left. exists z. repeat split. lia.
    + right; right. split; [|reflexivity].
      intros n [= <-]. exact E.
Qed.

Lemma expiresInSeconds_number (td : Input.tokenData) (n : number) :
  Input.expiresIn td = VNum n ->
  expiresInSeconds td = if gt n (Fin 0) then n else Fin DEFAULT_EXPIRES_IN.
Proof. intros H. unfold expiresInSeconds. now rewrite H. Qed.

Lemma expiresInSeconds_not_number (td : Input.tokenData) :
  as_number (Input.expiresIn td) = None ->
  expiresInSeconds td = Fin DEFAULT_EXPIRES_IN.
Proof. intros H. unfold expiresInSeconds. now rewrite H. Qed.

(** A record is not expired during the first second after it was saved. *)
Lemma fresh_record_not_expired (td : Input.tokenData) (now now_get : Z) :
  now_get - now <= 1000 ->
  gt (Fin now_get) (add (Fin now) (mul (expiresInSeconds td) (Fin 1000)))
  = false.
Proof.
  intros H.
  destruct (expiresInSeconds_cases td)
    as [[z [_ [Hz ->]]] | [[_ ->] | [_ ->]]]; simpl.
  - rewrite Z.gtb_ltb. apply Z.ltb_ge. lia.
  - reflexivity.
  - rewrite Z.gtb_ltb. apply Z.ltb_ge. unfold DEFAULT_EXPIRES_IN. lia.
Qed.

Lemma listTokens_userIds clock i (entries : list (string * tokenRecord)) :
  map userId (listTokens clock i entries) = JsMap.keys entries.
Proof.
  revert i. induction entries as [|[k r] entries IH]; intros i; simpl.
  - reflexivity.
  - now rewrite IH.
Qed.

Lemma listTokens_constant_clock now i (entries : list (string * tokenRecord)) :
  listTokens (fun _ => now) i entries =
  map (fun e => {| userId := fst e;
                   data := snd e;
                   isExpired := gt (Fin now) (expiresAt (snd e)) |}) entries.
Proof.
  revert i. induction entries as [|[k r] entries IH]; intros i; simpl.
  - reflexivity.
  - now rewrite IH.
Qed.

(** Counterexample to C3. A duration supplied as the string ["3600"] is
    neither missing nor non-positive, yet it is not used: the record expires
    60 days after the save, not 3600 s after it. *)
Lemma string_duration_is_not_used :
  let saved :=
    fst (saveToken 1700000000000 1700000000000 "1001"
           (sampleData (VStr "3600")) JsMap.empty) in
  expiresAt saved = Fin (1700000000000 + 5184000 * 1000) /\
  expiresAt saved <> Fin (1700000000000 + 3600 * 1000).
Proof.
  split; [reflexivity|]. intros H. discriminate H.
Qed.

(** C3 (amended). For a save at a reading [now] of [Date.now()]:
    a [getToken] at a reading not after [now] hands back the record
    [saveToken] stored and returned and leaves the store as it is, whatever
    [tokenData] holds; so does a [getToken] up to 1000 ms later when
    [expiresIn] is a whole number of seconds above zero or the default
    applies. The record carries the caller's [accessToken] and
    [instagramUserId], the other caller fields with their [||] defaults, and
    [createdAt]. For a whole number of seconds above zero [expiresAt] is
    exactly [now] plus 1000 times the duration as long as the sum is a safe
    integer, and for [Infinity] it is [Infinity]; when [expiresIn] is missing,
    not of type number, or a number not above zero, it is [now] plus 60 days
    (5,184,000 s). *)
Theorem save_then_get_round_trip
    (now now' now_get : Z) (userId : string) (td : Input.tokenData)
    (store : tokenStore) :
  JsRange.timeValue now ->
  now_get <= now ->
  let (saved, store1) := saveToken now now' userId td store in
  let (got, store2) := getToken now_get userId store1 in
  got = Some saved /\ store2 = store1 /\
  accessToken saved = Input.accessToken td /\
  tokenType saved = or_else (Input.tokenType td) (VStr "bearer") /\
  permissions saved = or_else (Input.permissions td) (VArr []) /\
  instagramUserId saved = Input.instagramUserId td /\
  instagramAccountId saved = or_else (Input.instagramAccountId td) VNull /\
  instagramUsername saved = or_else (Input.instagramUsername td) VNull /\
  pageAccessToken saved = or_else (Input.pageAccessToken td) VNull /\
  createdAt saved = now' /\
  (forall z, Input.expiresIn td = VNum (Fin z) -> 0 < z ->
             now + z * 1000 <= JsRange.MAX_SAFE_INTEGER ->
             expiresAt saved = Fin (now + z * 1000)) /\
  (Input.expiresIn td = VNum (Inf false) -> expiresAt saved = Inf false) /\
  (as_number (Input.expiresIn td) = None ->
   expiresAt saved = Fin (now + 5184000 * 1000)) /\
  (forall n, Input.expiresIn td = VNum n -> gt n (Fin 0) = false ->
             expiresAt saved = Fin (now + 5184000 * 1000)) /\
  (forall later,
     later - now <= 1000 ->
     (exists z, Input.expiresIn td = VNum (Fin z) /\ 0 < z) \/
     as_number (Input.expiresIn td) = None \/
     (exists n, Input.expiresIn td = VNum n /\ gt n (Fin 0) = false) ->
     getToken later userId store1 = (Some saved, store1)).
Proof.
  intros Htime Hsoon. unfold saveToken.
  assert (Hget : forall t,
            gt (Fin t)
              (add (Fin now) (mul (expiresInSeconds td) (Fin 1000))) = false ->
            getToken t userId
              (JsMap.set userId
                 {| accessToken := Input.accessToken td;
                    tokenType := or_else (Input.tokenType td) (VStr "bearer");
                    expiresAt :=
                      add (Fin now) (mul (expiresInSeconds td) (Fin 1000));
                    permissions := or_else (Input.permissions td) (VArr []);
                    instagramUserId := Input.instagramUserId td;
                    instagramAccountId :=
                      or_else (Input.instagramAccountId td) VNull;
                    instagramUsername :=
                      or_else (Input.instagramUsername td) VNull;
                    pageAccessToken :=
                      or_else (Input.pageAccessToken td) VNull;
                    createdAt := now' |} store)
            = (Some
                 {| accessToken := Input.accessToken td;
                    tokenType := or_else (Input.tokenType td) (VStr "bearer");
                    expiresAt :=
                      add (Fin now) (mul (expiresInSeconds td) (Fin 1000));
                    permissions := or_else (Input.permissions td) (VArr []);
                    instagramUserId := Input.instagramUserId td;
                    instagramAccountId :=
                      or_else (Input.instagramAccountId td) VNull;
                    instagramUsername :=
                      or_else (Input.instagramUsername td) VNull;
                    pageAccessToken :=
                      or_else (Input.pageAccessToken td) VNull;
                    createdAt := now' |},
               JsMap.set userId
                 {| accessToken := Input.accessToken td;
                    tokenType := or_else (Input.tokenType td) (VStr "bearer");
                    expiresAt :=
                      add (Fin now) (mul (expiresInSeconds td) (Fin 1000));
                    permissions := or_else (Input.permissions td) (VArr []);
                    instagramUserId := Input.instagramUserId td;
                    instagramAccountId :=
                      or_else (Input.instagramAccountId td) VNull;
                    instagramUsername :=
                      or_else (Input.instagramUsername td) VNull;
                    pageAccessToken :=
                      or_else (Input.pageAccessToken td) VNull;
                    createdAt := now' |} store)).
  { intros t Ht. unfold getToken. rewrite get_set_same.
    cbn [expiresAt]. now rewrite Ht. }
  rewrite (Hget now_get)
    by (apply fresh_record_not_expired; lia).
  cbn [accessToken tokenType permissions instagramUserId instagramAccountId
       instagramUsername pageAccessToken createdAt expiresAt].
  repeat split.
  - intros z Hz Hpos _. rewrite (expiresInSeconds_number td _ Hz). simpl.
    now replace (z >? 0) with true by (symmetry; apply Z.gtb_lt; lia).
  - intros Hinf. now rewrite (expiresInSeconds_number td _ Hinf).
  - intros Hnone. now rewrite (expiresInSeconds_not_number td Hnone).
  - intros n Hn Hnot. now rewrite (expiresInSeconds_number td n Hn), Hnot.
  - intros later Hlater _. apply Hget.
    now apply fresh_record_not_expired.
Qed.

Lemma save_then_get_round_trip_witness :
  let saved :=
    saveToken 1700000000000 1700000000000 "1001"
      (sampleData (VNum (Fin 3600))) JsMap.empty in
  fst (getToken 1700000000000 "1001" (snd saved)) = Some (fst saved) /\
  expiresAt (fst saved) = Fin 1700003600000.
Proof.
  assert (Htime : JsRange.timeValue 1700000000000)
    by (unfold JsRange.timeValue, JsRange.MAX_TIME_VALUE; lia).
  assert (Hsoon : 1700000000000 <= 1700000000000) by lia.
  pose proof (save_then_get_round_trip 1700000000000 1700000000000
                1700000000000 "1001" (sampleData (VNum (Fin 3600)))
                JsMap.empty Htime Hsoon) as H.
  cbv zeta.
  destruct (saveToken 1700000000000 1700000000000 "1001"
              (sampleData (VNum (Fin 3600))) JsMap.empty)
    as [saved store1] eqn:Hsave.
  cbn [fst snd].
  destruct (getToken 1700000000000 "1001" store1) as [got store2].
  destruct H as [Hgot [_ [_ [_ [_ [_ [_ [_ [_ [_ [_ [Hexact _]]]]]]]]]]]].
  split; [exact Hgot|].
  injection Hsave as <- _.
  reflexivity.
Defined.

(** C5. When the clock is past the [expiresAt] of the record stored for
    [userId], [getToken] answers [null] and deletes the record, and no
    element of a later [getAllTokens] is about that user. Nothing else
    expires credentials: the timer of the program leaves the token store
    as it is, and [getAllTokens] before the read still lists the record,
    flagged [isExpired], and does not delete it. *)
Theorem expired_record_is_dropped_on_read
    (now : Z) (userId : string) (r : tokenRecord) (store : tokenStore)
    (clock : nat -> Z) :
  JsMap.get userId store = Some r ->
  gt (Fin now) (expiresAt r) = true ->
  let (got, store1) := getToken now userId store in
  got = None /\
  store1 = JsMap.delete userId store /\
  JsMap.get userId store1 = None /\
  (forall e, In e (fst (getAllTokens clock store1)) ->
             TokenStorage.userId e <> userId) /\
  (forall tick states,
      Server.tokenStore
        (Server.timer tick
           {| Server.stateStore := states; Server.tokenStore := store |})
      = store) /\
  snd (getAllTokens clock store) = store /\
  In {| TokenStorage.userId := userId; data := r; isExpired := true |}
     (fst (getAllTokens (fun _ => now) store)).
Proof.
  intros Hget Hpast. unfold getToken. rewrite Hget, Hpast.
  split; [reflexivity|]. split; [reflexivity|].
  split; [apply get_delete_same|].
  split.
  - intros e He Heq.
    apply (keys_delete userId store).
    assert (Hin : In (TokenStorage.userId e)
                    (JsMap.keys (JsMap.delete userId store))).
    { rewrite <- (listTokens_userIds clock 0). now apply in_map. }
    now rewrite Heq in Hin.
  - split; [reflexivity|]. split; [reflexivity|].
    unfold getAllTokens. simpl fst. rewrite listTokens_constant_clock.
    apply in_map_iff. exists (userId, r). cbn [fst snd]. rewrite Hpast.
    split; [reflexivity | now apply get_Some_In].
Qed.

Lemma expired_record_is_dropped_on_read_witness :
  let saved :=
    saveToken 1700000000000 1700000000000 "1001"
      (sampleData (VNum (Fin 3600))) JsMap.empty in
  JsMap.get "1001" (snd saved) = Some (fst saved) /\
  gt (Fin 1700003600001) (expiresAt (fst saved)) = true /\
  fst (getToken 1700003600001 "1001" (snd saved)) = None.
Proof.
  split; [reflexivity|]. split; [reflexivity|].
  exact (proj1 (expired_record_is_dropped_on_read 1700003600001 "1001"
                  (fst (saveToken 1700000000000 1700000000000 "1001"
                          (sampleData (VNum (Fin 3600))) JsMap.empty))
                  (snd (saveToken 1700000000000 1700000000000 "1001"
                          (sampleData (VNum (Fin 3600))) JsMap.empty))
                  (fun _ => 1700003600002) eq_refl eq_refl)).
Defined.



(** C10. [saveToken] uses the 60-day default whenever [expiresIn] is not
    of type number: the string ["3600"], [null], any object, and every
    other non-number. The supplied value is the validity duration only when
    it is a number above zero; a number not above zero gets the default
    too. *)
Theorem non_number_expiresIn_gets_default
    (now now' : Z) (userId : string) (td : Input.tokenData)
    (store : tokenStore) :
  let saved := fst (saveToken now now' userId td store) in
  (as_number (Input.expiresIn td) = None ->
   expiresInSeconds td = Fin 5184000 /\
   expiresAt saved = Fin (now + 5184000 * 1000)) /\
  (Input.expiresIn td = VStr "3600" \/ Input.expiresIn td = VNull \/
   (exists props, Input.expiresIn td = VObj props) ->
   expiresAt saved = Fin (now + 5184000 * 1000)) /\
  (forall n, Input.expiresIn td = VNum n -> gt n (Fin 0) = true ->
             expiresInSeconds td = n /\
             expiresAt saved = add (Fin now) (mul n (Fin 1000))) /\
  (forall n, Input.expiresIn td = VNum n -> gt n (Fin 0) = false ->
             expiresInSeconds td = Fin 5184000) /\
  (expiresInSeconds td <> Fin 5184000 ->
   exists n, Input.expiresIn td = VNum n /\ gt n (Fin 0) = true /\
             expiresInSeconds td = n).
Proof.
  cbv zeta. unfold saveToken. cbn [fst expiresAt].
  split; [|split; [|split; [|split]]].
  - intros Hnot. rewrite (expiresInSeconds_not_number td Hnot).
    split; reflexivity.
  - intros H. rewrite expiresInSeconds_not_number; [reflexivity|].
    destruct H as [-> | [-> | [props ->]]]; reflexivity.
  - intros n Hn Hpos. rewrite (expiresInSeconds_number td n Hn), Hpos.
    split; reflexivity.
  - intros n Hn Hnot. now rewrite (expiresInSeconds_number td n Hn), Hnot.
  - intros Hne. unfold expiresInSeconds in *.
    destruct (Input.expiresIn td) as [| |b|n|s|items|props];
      simpl in *; try (exfalso; apply Hne; reflexivity).
    exists n. destruct (gt n (Fin 0)).
    + repeat split.
    + exfalso. apply Hne. reflexivity.
Qed.

Lemma non_number_expiresIn_gets_default_witness :
  expiresAt
    (fst (saveToken 1700000000000 1700000000000 "1001"
            (sampleData (VStr "3600")) JsMap.empty))
  = Fin 1705184000000.
Proof.
  apply (proj1 (proj2 (non_number_expiresIn_gets_default 1700000000000
           1700000000000 "1001" (sampleData (VStr "3600")) JsMap.empty))).
  left. reflexivity.
Defined.

End TokenStorageFacts.

(* ================================================================== *)
(** ** The OAuth callback *)

Module AuthFacts.

Import Js Auth JsMapFacts CsrfFacts Samples.

Lemma security_message_encoded :
  errorPage "Security validation failed"
  = Redirect "/error.html?error=Security%20validation%20failed".
Proof. reflexivity. Qed.

Lemma invalid_parameters_encoded :
  errorPage "Invalid callback parameters"
  = Redirect "/error.html?error=Invalid%20callback%20parameters".
Proof. reflexivity. Qed.

Lemma present_Some (p : option string) :
  present p = true -> exists s, p = Some s /\ s <> "".
Proof.
  destruct p as [s|]; simpl; [|discriminate].
  intros H. exists s. split; [reflexivity|].
  now apply (truthy_state s).
Qed.

(** The handler on a callback whose parameters pass the two guards and
    whose state is refused. *)
Lemma callback_refused up clk q s c st :
  present (error q) = false ->
  code q = Some c -> c <> "" ->
  state q = Some st -> st <> "" ->
  fst (Csrf.validateState st (atValidate clk) (Server.stateStore s)) = false ->
  callback up clk q s =
    (errorPage "Security validation failed",
     {| Server.stateStore :=
          snd (Csrf.validateState st (atValidate clk) (Server.stateStore s));
        Server.tokenStore := Server.tokenStore s |},
     []).
Proof.
  intros He Hc Hcne Hs Hsne Hv. unfold callback.
  rewrite He, Hc, Hs.
  apply truthy_state in Hcne. apply truthy_state in Hsne.
  rewrite Hcne, Hsne. cbn [negb orb].
  destruct (Csrf.validateState st (atValidate clk) (Server.stateStore s))
    as [valid stateStore'].
  simpl in Hv. subst valid. reflexivity.
Qed.

(** No request is sent and no store changes before [validateState] has
    accepted the state. *)
Lemma callback_unknown_state up clk q s :
  (forall st, state q = Some st ->
              JsMap.get st (Server.stateStore s) = None) ->
  exists message, callback up clk q s = (errorPage message, s, []).
Proof.
  intros Hunknown. unfold callback.
  destruct (present (error q)); [eexists; reflexivity|].
  destruct (code q) as [c|]; [|eexists; reflexivity].
  destruct (state q) as [st|] eqn:Hs; [|eexists; reflexivity].
  destruct (negb (truthy (VStr c)) || negb (truthy (VStr st)));
    [eexists; reflexivity|].
  rewrite (validateState_absent st _ _ (Hunknown st eq_refl)).
  cbn [negb]. destruct s. eexists; reflexivity.
Qed.

(** The registry refuses a token it does not hold (never issued, or
    already consumed) and a token older than the window. *)
Lemma validateState_refuses st now states :
  JsMap.get st states = None \/
  (exists ts, JsMap.get st states = Some ts /\
              now - ts > Csrf.STATE_EXPIRATION_MS) ->
  fst (Csrf.validateState st now states) = false.
Proof.
  intros [Hnone | [ts [Hsome Hold]]].
  - now rewrite validateState_absent.
  - unfold Csrf.validateState. rewrite Hsome.
    destruct (negb (truthy (VStr st))); [reflexivity|].
    destruct (negb (truthy (VNum (Fin ts)))); [reflexivity|].
    simpl. replace (now - ts >? Csrf.STATE_EXPIRATION_MS) with true;
      [reflexivity|].
    symmetry. apply Z.gtb_lt. lia.
Qed.

(** Counterexample to C2. A callback with a code but without [state]
    parameter is answered with "Invalid callback parameters", a redirect the
    user can tell from the security message. *)
Lemma missing_state_is_answered_differently :
  callback sampleUpstream sampleClock (sampleQuery (Some "c1") None None)
    Server.initial
  = (Redirect "/error.html?error=Invalid%20callback%20parameters",
     Server.initial, []) /\
  Redirect "/error.html?error=Invalid%20callback%20parameters"
  <> errorPage "Security validation failed".
Proof.
  split; [reflexivity|]. intros H. discriminate H.
Qed.

(** C2 (amended). Among the callbacks without error parameter: one with a
    non-empty code and a non-empty state that [validateState] refuses
    (unknown, expired or already consumed) is answered with the one redirect
    [/error.html?error=Security%20validation%20failed], sends no request and
    leaves the token store as it is, so the redirect does not depend on why
    the state was refused; one whose state is missing or empty is answered
    with [/error.html?error=Invalid%20callback%20parameters] instead, again
    without a request and with both stores as they are. *)
Theorem refused_state_gets_generic_message
    (up : upstream) (clk : clock) (q : query) (s : Server.state) :
  present (error q) = false ->
  (forall st,
     present (code q) = true ->
     state q = Some st -> st <> "" ->
     fst (Csrf.validateState st (atValidate clk) (Server.stateStore s))
     = false ->
     let '(shown, s', sent) := callback up clk q s in
     shown = Redirect "/error.html?error=Security%20validation%20failed" /\
     sent = [] /\
     Server.tokenStore s' = Server.tokenStore s) /\
  (present (state q) = false ->
   callback up clk q s
   = (Redirect "/error.html?error=Invalid%20callback%20parameters", s, [])).
Proof.
  intros He. split.
  - intros st Hc Hs Hsne Hv.
    destruct (present_Some _ Hc) as [c [Hcode Hcne]].
    rewrite (callback_refused up clk q s c st He Hcode Hcne Hs Hsne Hv).
    repeat split.
  - intros Hmissing. unfold callback. rewrite He.
    destruct (code q) as [c|]; [|reflexivity].
    destruct (state q) as [st|]; [|reflexivity].
    cbn [present] in Hmissing. rewrite Hmissing.
    cbn [negb]. rewrite orb_true_r. reflexivity.
Qed.

Lemma refused_state_gets_generic_message_witness :
  (let '(shown, s', sent) :=
     callback sampleUpstream sampleClock
       (sampleQuery (Some "c1") (Some "unknown") None) Server.initial in
   shown = Redirect "/error.html?error=Security%20validation%20failed" /\
   sent = [] /\
   Server.tokenStore s' = Server.tokenStore Server.initial) /\
  callback sampleUpstream sampleClock
    (sampleQuery (Some "c1") (Some "") None) Server.initial
  = (Redirect "/error.html?error=Invalid%20callback%20parameters",
     Server.initial, []).
Proof.
  split.
  - apply (proj1 (refused_state_gets_generic_message sampleUpstream
                    sampleClock
                    (sampleQuery (Some "c1") (Some "unknown") None)
                    Server.initial eq_refl) "unknown").
    + reflexivity.
    + reflexivity.
    + discriminate.
    + reflexivity.
  - apply (proj2 (refused_state_gets_generic_message sampleUpstream
                    sampleClock (sampleQuery (Some "c1") (Some "") None)
                    Server.initial eq_refl)).
    reflexivity.
Defined.

(** Counterexample to C8. A callback that reports a denial and carries a
    state the registry does not hold is answered with the reason of the
    denial, not with the security message. *)
Lemma unknown_state_with_denial_shows_the_reason :
  let q := {| code := Some "c1";
              state := Some "unknown";
              error := Some "access_denied";
              error_reason := Some "user_denied";
              error_description := Some "Permissions error" |} in
  JsMap.get "unknown" (Server.stateStore Server.initial) = None /\
  callback sampleUpstream sampleClock q Server.initial
  = (Redirect "/error.html?error=Permissions%20error", Server.initial, []) /\
  Redirect "/error.html?error=Permissions%20error"
  <> errorPage "Security validation failed".
Proof.
  split; [reflexivity|]. split; [reflexivity|]. intros H. discriminate H.
Qed.

(** C8 (amended). A callback whose state the registry does not hold ends
    in an error redirect, sends no request to the Graph API and leaves both
    stores as they are. The redirect carries the security message when the
    callback has no error parameter and a non-empty code and state; with an
    error parameter it carries [error_description], else [error_reason], else
    "Authorization failed"; without one, and with the code missing or empty
    or the state empty, it carries "Invalid callback parameters". *)
Theorem unknown_state_stops_the_flow
    (up : upstream) (clk : clock) (q : query) (s : Server.state)
    (st : string) :
  state q = Some st ->
  JsMap.get st (Server.stateStore s) = None ->
  (exists message, callback up clk q s = (errorPage message, s, [])) /\
  (present (error q) = false -> present (code q) = true -> st <> "" ->
   callback up clk q s
   = (Redirect "/error.html?error=Security%20validation%20failed", s, [])) /\
  (present (error q) = true ->
   callback up clk q s
   = (Redirect
        ("/error.html?error=" ++
         encodeURIComponent
           (or_str (error_description q)
              (or_str (error_reason q) "Authorization failed"))),
      s, [])) /\
  (present (error q) = false -> present (code q) = false \/ st = "" ->
   callback up clk q s
   = (Redirect "/error.html?error=Invalid%20callback%20parameters", s, [])).
Proof.
  intros Hs Hnone. split; [|split; [|split]].
  - apply callback_unknown_state. intros st' Hs'.
    rewrite Hs in Hs'. now injection Hs' as <-.
  - intros He Hc Hsne.
    destruct (present_Some _ Hc) as [c [Hcode Hcne]].
    rewrite (callback_refused up clk q s c st He Hcode Hcne Hs Hsne)
      by now rewrite validateState_absent.
    rewrite validateState_absent by exact Hnone.
    destruct s. reflexivity.
  - intros He. unfold callback. rewrite He. reflexivity.
  - intros He Hbad. unfold callback. rewrite He, Hs.
    destruct (code q) as [c|]; [|reflexivity].
    destruct Hbad as [Hc | ->].
    + cbn [present] in Hc. rewrite Hc. reflexivity.
    + cbn [truthy String.eqb negb]. rewrite orb_true_r. reflexivity.
Qed.

Lemma unknown_state_stops_the_flow_witness :
  callback sampleUpstream sampleClock
    (sampleQuery (Some "c1") (Some "unknown") None) Server.initial
  = (Redirect "/error.html?error=Security%20validation%20failed",
     Server.initial, []) /\
  callback sampleUpstream sampleClock
    (sampleQuery None (Some "unknown") None) Server.initial
  = (Redirect "/error.html?error=Invalid%20callback%20parameters",
     Server.initial, []).
Proof.
  split.
  - apply (proj1 (proj2 (unknown_state_stops_the_flow sampleUpstream
                           sampleClock
                           (sampleQuery (Some "c1") (Some "unknown") None)
                           Server.initial "unknown" eq_refl eq_refl))).
    + reflexivity.
    + reflexivity.
    + discriminate.
  - apply (proj2 (proj2 (proj2 (unknown_state_stops_the_flow sampleUpstream
                           sampleClock
                           (sampleQuery None (Some "unknown") None)
                           Server.initial "unknown" eq_refl eq_refl)))).
    + reflexivity.
    + left. reflexivity.
Defined.

(** *** The record written on completion *)

Lemma bind_Ok {A B : Type} (m : M A) (f : A -> M B) sent b :
  bind m f = (sent, Ok b) ->
  exists sent1 a sent2,
    m = (sent1, Ok a) /\ f a = (sent2, Ok b) /\ sent = (sent1 ++ sent2)%list.
Proof.
  unfold bind. destruct m as [sent1 [a|message]]; [|discriminate].
  destruct (f a) as [sent2 r] eqn:Hf. intros [= <- ->].
  now exists sent1, a, sent2.
Qed.

(** The page loop ends with both variables still [null], or with both set
    from the page whose account lookup succeeded. *)
Lemma findInstagramAccount_linked up pages sent found :
  lookup_needs_token_and_id up ->
  findInstagramAccount up pages = (sent, Ok found) ->
  (linkedAccountId found = VNull /\ linkedPageToken found = VNull) \/
  (truthy (linkedAccountId found) = true /\
   truthy (linkedPageToken found) = true).
Proof.
  intros Hup. revert sent. induction pages as [|p rest IH]; intros sent; simpl.
  - intros [= <- <-]. now left.
  - destruct (instagram_business_account p) as [accountId|]; [|apply IH].
    destruct (getInstagramBusinessAccount up (page_access_token p) accountId)
      as [account|message] eqn:Hlookup; [|discriminate].
    intros [= _ <-]. right. cbn [linkedAccountId linkedPageToken].
    destruct (Hup _ _ _ Hlookup) as [Htok Hid]. now split.
Qed.

Lemma resolve_linked up c sent r :
  lookup_needs_token_and_id up ->
  resolve up c = (sent, Ok r) ->
  let td := resolvedTokenData r in
  (TokenStorage.Input.instagramAccountId td = VNull /\
   TokenStorage.Input.pageAccessToken td = VNull) \/
  (truthy (TokenStorage.Input.instagramAccountId td) = true /\
   truthy (TokenStorage.Input.pageAccessToken td) = true).
Proof.
  intros Hup H. unfold resolve in H.
  apply bind_Ok in H. destruct H as [? [shortLived [? [_ [H _]]]]].
  apply bind_Ok in H. destruct H as [? [longLived [? [_ [H _]]]]].
  apply bind_Ok in H. destruct H as [? [user [? [_ [H _]]]]].
  apply bind_Ok in H. destruct H as [? [pages [? [_ [H _]]]]].
  apply bind_Ok in H. destruct H as [sentf [found [? [Hfind [H _]]]]].
  unfold ret in H. injection H as _ <-. cbv zeta.
  cbn [resolvedTokenData TokenStorage.Input.instagramAccountId
       TokenStorage.Input.pageAccessToken].
  exact (findInstagramAccount_linked up pages sentf found Hup Hfind).
Qed.

Lemma saveToken_paired now now' userId td store :
  (TokenStorage.Input.instagramAccountId td = VNull /\
   TokenStorage.Input.pageAccessToken td = VNull) \/
  (truthy (TokenStorage.Input.instagramAccountId td) = true /\
   truthy (TokenStorage.Input.pageAccessToken td) = true) ->
  paired (fst (TokenStorage.saveToken now now' userId td store)).
Proof.
  unfold paired, TokenStorage.saveToken.
  cbn [fst TokenStorage.instagramAccountId TokenStorage.pageAccessToken].
  unfold or_else. intros [[-> ->] | [Hid Htok]].
  - now left.
  - rewrite Hid, Htok. right.
    split; intros E; rewrite E in *; discriminate.
Qed.

Lemma all_paired_set k r store :
  paired r -> all_paired store -> all_paired (JsMap.set k r store).
Proof.
  intros Hr. unfold all_paired.
  induction store as [|[k' r'] store IH]; simpl; intros H.
  - constructor; [exact Hr | constructor].
  - inversion H; subst.
    destruct (k =? k')%string; constructor; auto.
Qed.

(** What the page loop did when it ended without throwing: nothing, or
    the one lookup that was answered, for the values it then keeps. *)
Lemma findInstagramAccount_outcome up pages sent found :
  findInstagramAccount up pages = (sent, Ok found) ->
  (sent = [] /\ linkedAccountId found = VNull /\
   linkedPageToken found = VNull) \/
  (exists account,
     sent = [AccountLookup (linkedPageToken found) (linkedAccountId found)] /\
     getInstagramBusinessAccount up (linkedPageToken found)
       (linkedAccountId found) = Ok account).
Proof.
  revert sent. induction pages as [|p rest IH]; intros sent; simpl.
  - intros [= <- <-]. now left.
  - destruct (instagram_business_account p) as [accountId|]; [|apply IH].
    destruct (getInstagramBusinessAccount up (page_access_token p) accountId)
      as [account|message] eqn:Hlookup; [|discriminate].
    intros [= <- <-]. right. exists account.
    cbn [linkedAccountId linkedPageToken]. now split.
Qed.

Lemma resolve_outcome up c sent r :
  resolve up c = (sent, Ok r) ->
  let td := resolvedTokenData r in
  ((forall tok accountId, ~ In (AccountLookup tok accountId) sent) /\
   TokenStorage.Input.instagramAccountId td = VNull /\
   TokenStorage.Input.pageAccessToken td = VNull) \/
  (exists account,
     In (AccountLookup (TokenStorage.Input.pageAccessToken td)
           (TokenStorage.Input.instagramAccountId td)) sent /\
     getInstagramBusinessAccount up (TokenStorage.Input.pageAccessToken td)
       (TokenStorage.Input.instagramAccountId td) = Ok account).
Proof.
  intros H. unfold resolve in H.
  apply bind_Ok in H. destruct H as [s1 [shortLived [s1' [H1 [H ->]]]]].
  apply bind_Ok in H. destruct H as [s2 [longLived [s2' [H2 [H ->]]]]].
  apply bind_Ok in H. destruct H as [s3 [user [s3' [H3 [H ->]]]]].
  apply bind_Ok in H. destruct H as [s4 [pages [s4' [H4 [H ->]]]]].
  apply bind_Ok in H. destruct H as [sentf [found [s5 [Hfind [H ->]]]]].
  unfold ret in H. injection H as <- <-. cbv zeta.
  unfold await in H1, H2, H3, H4.
  injection H1 as <- _. injection H2 as <- _.
  injection H3 as <- _. injection H4 as <- _.
  cbn [resolvedTokenData TokenStorage.Input.instagramAccountId
       TokenStorage.Input.pageAccessToken].
  destruct (findInstagramAccount_outcome up pages sentf found Hfind)
    as [[-> [Hid Htok]] | [account [-> Hlookup]]].
  - left. split; [|now split].
    intros tok accountId Hin. cbn in Hin.
    repeat (destruct Hin as [Hin | Hin]; [discriminate Hin|]).
    contradiction.
  - right. exists account. split; [|exact Hlookup].
    cbn. do 4 right. now left.
Qed.

(** C6 (amended). In the record the callback writes, [instagramAccountId]
    and [pageAccessToken] are both [null] when no account lookup was sent;
    otherwise they are the account id and the page token of the one lookup
    that was sent and answered, each replaced by [null] when falsy. The
    handler checks neither value; the two are both [null] or both set, in
    this record and in every record of the store, when the Graph API answers
    an account lookup only for a request that carries both. *)
Theorem callback_stores_paired_records
    (up : upstream) (clk : clock) (q : query) (s : Server.state) :
  all_paired (Server.tokenStore s) ->
  let '(shown, s', sent) := callback up clk q s in
  (lookup_needs_token_and_id up -> all_paired (Server.tokenStore s')) /\
  (forall successParams, shown = RedirectSuccess successParams ->
     exists userId r,
       JsMap.get userId (Server.tokenStore s') = Some r /\
       TokenStorage.createdAt r = atCreated clk /\
       (((forall tok accountId, ~ In (AccountLookup tok accountId) sent) /\
         TokenStorage.instagramAccountId r = VNull /\
         TokenStorage.pageAccessToken r = VNull) \/
        (exists tok accountId account,
           In (AccountLookup tok accountId) sent /\
           getInstagramBusinessAccount up tok accountId = Ok account /\
           TokenStorage.instagramAccountId r = or_else accountId VNull /\
           TokenStorage.pageAccessToken r = or_else tok VNull)) /\
       (lookup_needs_token_and_id up -> paired r)).
Proof.
  intros Hstore. unfold callback.
  destruct (present (error q));
    [split; [intros _; exact Hstore | intros ? [=]]|].
  destruct (code q) as [c|]; [|split; [intros _; exact Hstore | intros ? [=]]].
  destruct (state q) as [st|];
    [|split; [intros _; exact Hstore | intros ? [=]]].
  destruct (negb (truthy (VStr c)) || negb (truthy (VStr st)));
    [split; [intros _; exact Hstore | intros ? [=]]|].
  destruct (Csrf.validateState st (atValidate clk) (Server.stateStore s))
    as [valid stateStore'].
  destruct valid; cbn [negb];
    [|split; [intros _; exact Hstore | intros ? [=]]].
  destruct (resolve up c) as [sent [r|message]] eqn:Hres;
    [|split; [intros _; exact Hstore | intros ? [=]]].
  assert (Hpaired : lookup_needs_token_and_id up ->
            paired (fst (TokenStorage.saveToken (atExpiry clk) (atCreated clk)
                           (resolvedUserId r) (resolvedTokenData r)
                           (Server.tokenStore s)))).
  { intros Hup. apply saveToken_paired.
    exact (resolve_linked up c sent r Hup Hres). }
  pose proof (resolve_outcome up c sent r Hres) as Hout. cbv zeta in Hout.
  unfold TokenStorage.saveToken in *. cbn [fst] in Hpaired.
  cbn [Server.tokenStore]. split.
  - intros Hup. apply all_paired_set; [now apply Hpaired | exact Hstore].
  - intros _ _. eexists _, _. split; [apply get_set_same|].
    split; [reflexivity|]. split; [|exact Hpaired].
    cbn [TokenStorage.instagramAccountId TokenStorage.pageAccessToken].
    destruct Hout as [[Hnone [-> ->]] | [account [Hin Hlookup]]].
    + left. now split.
    + right. eexists _, _, account. repeat split; eassumption.
Qed.

Lemma sampleUpstream_lookup : lookup_needs_token_and_id sampleUpstream.
Proof.
  intros tok accountId account. simpl.
  destruct (truthy tok), (truthy accountId); simpl;
    intros H; try discriminate H; now split.
Qed.

Lemma callback_stores_paired_records_witness :
  let s := snd (initiate "s1" 1700000000000 Server.initial) in
  let '(shown, s', sent) :=
    callback sampleUpstream sampleClock
      (sampleQuery (Some "c1") (Some "s1") None) s in
  all_paired (Server.tokenStore s') /\
  exists r,
    JsMap.get "1001" (Server.tokenStore s') = Some r /\
    TokenStorage.instagramAccountId r = VStr "17841400000000001" /\
    TokenStorage.pageAccessToken r = VStr "P1".
Proof.
  pose proof (callback_stores_paired_records sampleUpstream sampleClock
                (sampleQuery (Some "c1") (Some "s1") None)
                (snd (initiate "s1" 1700000000000 Server.initial))
                ltac:(constructor)) as H.
  cbv zeta.
  destruct (callback sampleUpstream sampleClock
              (sampleQuery (Some "c1") (Some "s1") None)
              (snd (initiate "s1" 1700000000000 Server.initial)))
    as [[shown s'] sent] eqn:Hrun.
  destruct H as [Hall _]. split; [exact (Hall sampleUpstream_lookup)|].
  vm_compute in Hrun. injection Hrun as _ <- _.
  eexists. repeat split.
Defined.

(** Counterexample to C6. The Graph API lists a page with a linked
    business account and no [access_token] and answers the account lookup:
    the flow completes and the record written holds the account id without a
    page token. *)
Lemma record_with_account_and_no_page_token :
  let s := snd (initiate "s1" 1700000000000 Server.initial) in
  let '(shown, s', sent) :=
    callback JsRange.tokenlessUpstream sampleClock
      (sampleQuery (Some "c1") (Some "s1") None) s in
  (exists successParams, shown = RedirectSuccess successParams) /\
  exists r,
    JsMap.get "1001" (Server.tokenStore s') = Some r /\
    TokenStorage.instagramAccountId r = VStr "17841400000000001" /\
    TokenStorage.pageAccessToken r = VNull /\
    ~ paired r.
Proof.
  cbv zeta. vm_compute callback.
  split; [eexists; reflexivity|].
  eexists. split; [reflexivity|]. split; [reflexivity|].
  split; [reflexivity|].
  unfold paired. cbn. intros [[H _] | [_ H]]; [discriminate H | now apply H].
Qed.

(** *** The scenarios of the specification, run on the embedding *)

(** State ["s1"] is issued, the callback brings [code=c1] and [state=s1],
    the exchange yields ["A"] and the upgrade ["B"] for 5,184,000 s: the
    flow completes after four lookups and the account lookup, the state is
    consumed, and the record of user ["1001"] holds ["B"], expiring
    5,184,000 s after the save. *)
Example scenario_complete :
  let s := snd (initiate "s1" 1700000000000 Server.initial) in
  let '(shown, s', sent) :=
    callback sampleUpstream sampleClock
      (sampleQuery (Some "c1") (Some "s1") None) s in
  (exists successParams, shown = RedirectSuccess successParams) /\
  sent = [ CodeExchange "c1"; TokenUpgrade (VStr "A");
           IdentityLookup (VStr "B") "id,name"; PagesLookup (VStr "B");
           AccountLookup (VStr "P1") (VStr "17841400000000001") ] /\
  Server.stateStore s' = [] /\
  exists r,
    fst (TokenStorage.getToken 1700000003000 "1001" (Server.tokenStore s'))
    = Some r /\
    TokenStorage.accessToken r = VStr "B" /\
    TokenStorage.expiresAt r = Fin (1700000002000 + 5184000 * 1000) /\
    TokenStorage.instagramAccountId r = VStr "17841400000000001" /\
    TokenStorage.pageAccessToken r = VStr "P1".
Proof.
  cbv zeta. vm_compute callback.
  split; [eexists; reflexivity|]. split; [reflexivity|].
  split; [reflexivity|]. eexists. split; [reflexivity|].
  repeat split.
Qed.

(** A denial: the reason is shown, nothing is sent, nothing is written. *)
Example scenario_denied :
  callback sampleUpstream sampleClock
    (sampleQuery None None (Some "access_denied")) Server.initial
  = (Redirect "/error.html?error=Authorization%20failed",
     Server.initial, []).
Proof. reflexivity. Qed.

End AuthFacts.

(* ================================================================== *)
(** ** More on [JsMap] *)

Module JsMapMore.

Import JsMap JsMapFacts.

Section Facts.
Context {V : Type}.
Implicit Types (m : JsMap.t V) (k : string) (v : V).

Lemma keys_filter_incl (f : string * V -> bool) k m :
  In k (keys (filter f m)) -> In k (keys m).
Proof.
  unfold keys. rewrite !in_map_iff. intros [e [He Hin]].
  apply filter_In in Hin. exists e. tauto.
Qed.

(** Lookup in a filtered map that holds no key twice. *)
Lemma get_filter (f : string * V -> bool) k m :
  wf m ->
  get k (filter f m) =
  match get k m with
  | Some v => if f (k, v) then Some v else None
  | None => None
  end.
Proof.
  unfold wf. induction m as [|[k' v'] m IH]; simpl; intros H; [reflexivity|].
  inversion H as [|? ? Hnotin Hnd]; subst.
  destruct (String.eqb_spec k k') as [->|Hne].
  - destruct (f (k', v')) eqn:Hf; simpl.
    + now rewrite String.eqb_refl.
    + apply get_None_keys. intros Hin. apply Hnotin.
      now apply keys_filter_incl in Hin.
  - destruct (f (k', v')); simpl; [|now apply IH].
    apply String.eqb_neq in Hne. rewrite Hne. now apply IH.
Qed.

Lemma delete_absent k m : get k m = None -> delete k m = m.
Proof.
  induction m as [|[k' v'] m IH]; simpl; [reflexivity|].
  destruct (String.eqb_spec k k') as [->|Hne]; [discriminate|].
  intros H. simpl. now rewrite IH.
Qed.

Lemma size_delete k v m :
  wf m -> get k m = Some v -> size m = S (size (delete k m)).
Proof.
  unfold wf, size. induction m as [|[k' v'] m IH]; simpl; intros H;
    [discriminate|].
  inversion H as [|? ? Hnotin Hnd]; subst.
  destruct (String.eqb_spec k k') as [->|Hne]; simpl.
  - intros _. f_equal. fold (delete k' m).
    rewrite delete_absent; [reflexivity|]. now apply get_None_keys.
  - intros Hget. f_equal. now apply IH.
Qed.

Lemma size_set k v m :
  size (set k v m) =
  match get k m with Some _ => size m | None => S (size m) end.
Proof.
  unfold size. induction m as [|[k' v'] m IH]; simpl; [reflexivity|].
  destruct (String.eqb_spec k k') as [->|Hne]; simpl; [reflexivity|].
  rewrite IH. now destruct (get k m).
Qed.

End Facts.

End JsMapMore.

(* ================================================================== *)
(** ** More on the CSRF state registry: the sweep and the counters *)

Module CsrfMore.

Import Csrf JsMapFacts JsMapMore CsrfFacts.

(** Lookup after a sweep, in a registry that holds no token twice. *)
Lemma cleanup_lookup (now : Z) (st : stateStore) (t : string) :
  JsMap.wf st ->
  JsMap.get t (cleanupExpiredStates now st) =
  match JsMap.get t st with
  | Some ts => if now - ts >? STATE_EXPIRATION_MS then None else Some ts
  | None => None
  end.
Proof.
  intros Hwf. unfold cleanupExpiredStates.
  rewrite (get_filter _ t st Hwf).
  destruct (JsMap.get t st) as [ts|]; [|reflexivity].
  cbn [snd]. now destruct (now - ts >? STATE_EXPIRATION_MS).
Qed.

(** X1. In a registry that holds no token twice, the sweep removes exactly
    the entries older than the window: a token is found afterwards, with
    its timestamp, if and only if it was there and is not older than ten
    minutes at the reading of the sweep. *)
Theorem cleanup_removes_exactly_the_expired
    (now : Z) (st : stateStore) (t : string) :
  JsMap.wf st ->
  JsMap.get t (cleanupExpiredStates now st) =
  match JsMap.get t st with
  | Some ts => if now - ts >? STATE_EXPIRATION_MS then None else Some ts
  | None => None
  end.
Proof. apply cleanup_lookup. Qed.

Lemma cleanup_removes_exactly_the_expired_witness :
  let st := snd (generateState "s2" 1700000500000
                   (snd (generateState "s1" 1700000000000 JsMap.empty))) in
  JsMap.get "s1" (cleanupExpiredStates 1700000600001 st) = None /\
  JsMap.get "s2" (cleanupExpiredStates 1700000600001 st)
  = Some 1700000500000.
Proof.
  assert (Hwf : JsMap.wf
                  (snd (generateState "s2" 1700000500000
                     (snd (generateState "s1" 1700000000000 JsMap.empty))))).
  { apply wf_set, wf_set. constructor. }
  split.
  - exact (cleanup_removes_exactly_the_expired 1700000600001 _ "s1" Hwf).
  - exact (cleanup_removes_exactly_the_expired 1700000600001 _ "s2" Hwf).
Defined.

(** X2. A sweep never changes what a later validation answers: for a
    registry that holds no token twice and a sweep at a reading not after
    the validation, [validateState] answers the same with and without the
    sweep. *)
Theorem cleanup_keeps_validation_answers
    (swept now : Z) (st : stateStore) (t : string) :
  JsMap.wf st ->
  swept <= now ->
  fst (validateState t now (cleanupExpiredStates swept st))
  = fst (validateState t now st).
Proof.
  intros Hwf Hle. unfold validateState.
  destruct (negb (Js.truthy (Js.VStr t))); [reflexivity|].
  rewrite (cleanup_lookup swept st t Hwf).
  destruct (JsMap.get t st) as [ts|]; [|reflexivity].
  destruct (swept - ts >? STATE_EXPIRATION_MS) eqn:Hold.
  - destruct (negb (Js.truthy (Js.VNum (Js.Fin ts)))); [reflexivity|].
    cbv zeta.
    replace (now - ts >? STATE_EXPIRATION_MS) with true; [reflexivity|].
    symmetry. apply Z.gtb_lt. apply Z.gtb_lt in Hold. lia.
  - destruct (negb (Js.truthy (Js.VNum (Js.Fin ts)))); [reflexivity|].
    cbv zeta. now destruct (now - ts >? STATE_EXPIRATION_MS).
Qed.

Lemma cleanup_keeps_validation_answers_witness :
  let st := snd (generateState "s1" 1700000000000 JsMap.empty) in
  fst (validateState "s1" 1700000300000
         (cleanupExpiredStates 1700000299000 st))
  = fst (validateState "s1" 1700000300000 st).
Proof.
  apply (cleanup_keeps_validation_answers 1700000299000 1700000300000
           (snd (generateState "s1" 1700000000000 JsMap.empty)) "s1").
  - apply wf_set. constructor.
  - lia.
Defined.

(** X3. Sweeps compose: a sweep after an earlier sweep leaves what the
    later sweep alone leaves; in particular a sweep repeated at the same
    reading changes nothing. *)
Theorem cleanup_after_cleanup (earlier later : Z) (st : stateStore) :
  earlier <= later ->
  cleanupExpiredStates later (cleanupExpiredStates earlier st)
  = cleanupExpiredStates later st.
Proof.
  intros Hle. unfold cleanupExpiredStates.
  induction st as [|[k ts] st IH]; simpl; [reflexivity|].
  destruct (earlier - ts >? STATE_EXPIRATION_MS) eqn:He; simpl.
  - replace (later - ts >? STATE_EXPIRATION_MS) with true; [exact IH|].
    symmetry. apply Z.gtb_lt. apply Z.gtb_lt in He. lia.
  - destruct (later - ts >? STATE_EXPIRATION_MS); simpl; now rewrite IH.
Qed.

Lemma cleanup_after_cleanup_witness :
  let st := snd (generateState "s2" 1700000500000
                   (snd (generateState "s1" 1700000000000 JsMap.empty))) in
  cleanupExpiredStates 1700000900000 (cleanupExpiredStates 1700000600001 st)
  = cleanupExpiredStates 1700000900000 st.
Proof.
  apply (cleanup_after_cleanup 1700000600001 1700000900000). lia.
Defined.

(** X4. Issuing a token records it with the reading of the clock and
    touches no other token; the count of [getStateCount] grows by one for a
    new token and stays when [uuidv4] repeats a token already held, whose
    timestamp is then replaced. *)
Theorem generateState_adds_one_entry
    (uuid : string) (now : Z) (st : stateStore) :
  let (t, st') := generateState uuid now st in
  t = uuid /\
  JsMap.get t st' = Some now /\
  (forall other, other <> t -> JsMap.get other st' = JsMap.get other st) /\
  (JsMap.get uuid st = None -> getStateCount st' = S (getStateCount st)) /\
  (JsMap.get uuid st <> None -> getStateCount st' = getStateCount st).
Proof.
  unfold generateState, getStateCount.
  split; [reflexivity|]. split; [apply get_set_same|].
  split; [intros other Hne; apply get_set_other; congruence|].
  rewrite size_set. destruct (JsMap.get uuid st).
  - split; [discriminate | reflexivity].
  - split; [reflexivity | intros H; now elim H].
Qed.

(** X5. A validation that answers [true] consumes exactly one entry: the
    token is gone, the count is one less, and every other token is held as
    before. *)
Theorem successful_validation_consumes_one_entry
    (t : string) (now : Z) (st st' : stateStore) :
  JsMap.wf st ->
  validateState t now st = (true, st') ->
  JsMap.get t st' = None /\
  getStateCount st = S (getStateCount st') /\
  (forall other, other <> t -> JsMap.get other st' = JsMap.get other st).
Proof.
  intros Hwf Hv. apply validateState_true in Hv.
  destruct Hv as [ts [Hget [_ ->]]].
  split; [apply get_delete_same|].
  split; [exact (size_delete t ts st Hwf Hget)|].
  intros other Hne. apply get_delete_other. congruence.
Qed.

Lemma successful_validation_consumes_one_entry_witness :
  let st := snd (generateState "s2" 1700000500000
                   (snd (generateState "s1" 1700000000000 JsMap.empty))) in
  let st' := snd (validateState "s1" 1700000100000 st) in
  JsMap.get "s1" st' = None /\
  getStateCount st = S (getStateCount st') /\
  (forall other, other <> "s1" -> JsMap.get other st' = JsMap.get other st).
Proof.
  apply (successful_validation_consumes_one_entry "s1" 1700000100000
           (snd (generateState "s2" 1700000500000
                   (snd (generateState "s1" 1700000000000 JsMap.empty))))).
  - apply wf_set, wf_set. constructor.
  - reflexivity.
Defined.

End CsrfMore.

(* ================================================================== *)
(** ** More on the token store *)

Module TokenStorageMore.

Import Js TokenStorage JsMapFacts JsMapMore TokenStorageFacts Samples.

(** X6. [getToken] hands out a record only when it is the one stored for
    the user and the clock is not past its [expiresAt], and then leaves the
    store alone; when it answers [null] the store holds no record for the
    user afterwards, and is unchanged if it held none before. *)
Theorem getToken_answers_only_live_records
    (now : Z) (userId : string) (store : tokenStore) :
  match getToken now userId store with
  | (Some r, store') =>
      store' = store /\ JsMap.get userId store = Some r /\
      gt (Fin now) (expiresAt r) = false
  | (None, store') =>
      JsMap.get userId store' = None /\
      (JsMap.get userId store = None -> store' = store)
  end.
Proof.
  unfold getToken. destruct (JsMap.get userId store) as [r|] eqn:Hget.
  - destruct (gt (Fin now) (expiresAt r)) eqn:Hgt.
    + split; [apply get_delete_same | discriminate].
    + repeat split; assumption.
  - split; [exact Hget | reflexivity].
Qed.

Lemma getToken_answer_by_lookup t userId (s1 s2 : tokenStore) :
  JsMap.get userId s1 = JsMap.get userId s2 ->
  fst (getToken t userId s1) = fst (getToken t userId s2).
Proof.
  intros H. unfold getToken. rewrite H.
  destruct (JsMap.get userId s2) as [r|]; [|reflexivity].
  now destruct (gt (Fin t) (expiresAt r)).
Qed.

(** X7. What is done for one user is not seen by another: after
    [saveToken], [getToken] or [deleteToken] for [userId], a [getToken] for
    a different user answers as it would have before. *)
Theorem other_users_are_untouched
    (now now' t t' : Z) (userId other : string) (td : Input.tokenData)
    (store : tokenStore) :
  userId <> other ->
  fst (getToken t' other (snd (saveToken now now' userId td store)))
  = fst (getToken t' other store) /\
  fst (getToken t' other (snd (getToken t userId store)))
  = fst (getToken t' other store) /\
  fst (getToken t' other (snd (deleteToken userId store)))
  = fst (getToken t' other store).
Proof.
  intros Hne.
  assert (Hdel : JsMap.get other (JsMap.delete userId store)
                 = JsMap.get other store) by now apply get_delete_other.
  repeat split; apply getToken_answer_by_lookup.
  - unfold saveToken. cbn [snd]. now apply get_set_other.
  - unfold getToken.
    destruct (JsMap.get userId store) as [r|]; [|reflexivity].
    destruct (gt (Fin t) (expiresAt r)); [exact Hdel | reflexivity].
  - exact Hdel.
Qed.

Lemma other_users_are_untouched_witness :
  let store :=
    snd (saveToken 1700000000000 1700000000000 "1002"
           (sampleData (VNum (Fin 3600))) JsMap.empty) in
  fst (getToken 1700000001000 "1002"
         (snd (saveToken 1700000000500 1700000000500 "1001"
                 (sampleData VUndefined) store)))
  = fst (getToken 1700000001000 "1002" store).
Proof.
  apply (other_users_are_untouched 1700000000500 1700000000500
           1700000000700 1700000001000 "1001" "1002"
           (sampleData VUndefined)).
  discriminate.
Defined.

(** X8. [deleteToken] answers [true] exactly when the user had a record,
    expired or not; afterwards the user has none. When it answers [false]
    the store is unchanged, when it answers [true] the count of
    [getTokenCount] is one less. *)
Theorem deleteToken_reports_and_removes
    (userId : string) (store : tokenStore) :
  JsMap.wf store ->
  let (deleted, store') := deleteToken userId store in
  (deleted = true <-> JsMap.get userId store <> None) /\
  JsMap.get userId store' = None /\
  (deleted = false -> store' = store) /\
  (deleted = true -> getTokenCount store = S (getTokenCount store')).
Proof.
  intros Hwf. unfold deleteToken, getTokenCount.
  assert (Hhas : JsMap.has userId store = true <->
                 JsMap.get userId store <> None).
  { rewrite has_keys. split.
    - intros Hin Hnone. now apply get_None_keys in Hnone.
    - intros Hsome.
      destruct (in_dec string_dec userId (JsMap.keys store)) as [Hin|Hnot];
        [exact Hin|].
      exfalso. apply Hsome. now apply get_None_keys. }
  split; [exact Hhas|]. split; [apply get_delete_same|]. split.
  - intros Hfalse. apply delete_absent.
    destruct (JsMap.get userId store) eqn:Hget; [|reflexivity].
    assert (JsMap.has userId store = true) by (apply Hhas; discriminate).
    congruence.
  - intros Htrue. apply Hhas in Htrue.
    destruct (JsMap.get userId store) as [r|] eqn:Hget; [|now elim Htrue].
    exact (size_delete userId r store Hwf Hget).
Qed.

Lemma deleteToken_reports_and_removes_witness :
  let store :=
    snd (saveToken 1700000000000 1700000000000 "1001"
           (sampleData (VNum (Fin 3600))) JsMap.empty) in
  let (deleted, store') := deleteToken "1001" store in
  (deleted = true <-> JsMap.get "1001" store <> None) /\
  JsMap.get "1001" store' = None /\
  (deleted = false -> store' = store) /\
  (deleted = true -> getTokenCount store = S (getTokenCount store')).
Proof.
  apply (deleteToken_reports_and_removes "1001"
           (snd (saveToken 1700000000000 1700000000000 "1001"
                   (sampleData (VNum (Fin 3600))) JsMap.empty))).
  apply wf_set. constructor.
Defined.

Lemma listTokens_nth clock (entries : list (string * tokenRecord)) :
  forall offset i k r,
    nth_error entries i = Some (k, r) ->
    nth_error (listTokens clock offset entries) i =
    Some {| userId := k; data := r;
            isExpired := gt (Fin (clock (offset + i)%nat)) (expiresAt r) |}.
Proof.
  induction entries as [|[k0 r0] entries IH]; intros offset i k r H.
  - destruct i; discriminate.
  - destruct i as [|i]; simpl in *.
    + injection H as -> ->. now rewrite Nat.add_0_r.
    + rewrite (IH (S offset) i k r H). now rewrite Nat.add_succ_r.
Qed.

(** X9. [getAllTokens] reads and never writes: the store is unchanged, the
    array has one element per record, in the order of the store, and the
    element at position [i] carries the user, the record and the flag
    [Date.now() > expiresAt] for the reading taken at that element. Read at
    one instant, the flag is set exactly for the users to whom [getToken]
    would answer [null] at that instant. *)
Theorem getAllTokens_lists_every_record
    (clock : nat -> Z) (now : Z) (store : tokenStore) :
  JsMap.wf store ->
  let (tokens, store') := getAllTokens clock store in
  store' = store /\
  List.length tokens = getTokenCount store /\
  map userId tokens = JsMap.keys store /\
  (forall i k r, nth_error store i = Some (k, r) ->
     nth_error tokens i =
     Some {| userId := k; data := r;
             isExpired := gt (Fin (clock i)) (expiresAt r) |}) /\
  (forall e, In e (fst (getAllTokens (fun _ => now) store)) ->
     (isExpired e = true <-> fst (getToken now (userId e) store) = None)).
Proof.
  intros Hwf. unfold getAllTokens. cbn [fst].
  split; [reflexivity|]. split.
  { unfold getTokenCount, JsMap.size.
    rewrite <- (length_map userId), listTokens_userIds.
    unfold JsMap.keys. apply length_map. }
  split; [apply listTokens_userIds|]. split.
  { intros i k r H. exact (listTokens_nth clock store 0 i k r H). }
  intros e He. rewrite listTokens_constant_clock in He.
  apply in_map_iff in He. destruct He as [[k r] [<- Hin]]. cbn [userId isExpired fst snd].
  assert (Hget : JsMap.get k store = Some r).
  { clear - Hwf Hin. unfold JsMap.wf in Hwf.
    induction store as [|[k0 r0] store IH]; [contradiction|].
    simpl in *. inversion Hwf as [|? ? Hnotin Hnd]; subst.
    destruct Hin as [[= -> ->]|Hin].
    - now rewrite String.eqb_refl.
    - destruct (String.eqb_spec k k0) as [->|Hne]; [|now apply IH].
      exfalso. apply Hnotin. apply in_map_iff. now exists (k0, r). }
  unfold getToken. rewrite Hget.
  destruct (gt (Fin now) (expiresAt r)); cbn [fst]; split;
    intros H; try reflexivity; discriminate.
Qed.

Lemma getAllTokens_lists_every_record_witness :
  let store :=
    snd (saveToken 1700000000000 1700000000000 "1001"
           (sampleData (VNum (Fin 3600))) JsMap.empty) in
  List.length (fst (getAllTokens (fun _ => 1700003600001) store))
  = getTokenCount store.
Proof.
  assert (Hwf : JsMap.wf
                  (snd (saveToken 1700000000000 1700000000000 "1001"
                          (sampleData (VNum (Fin 3600))) JsMap.empty))).
  { apply wf_set. constructor. }
  exact (proj1 (proj2 (getAllTokens_lists_every_record
                         (fun _ => 1700003600001) 1700003600001 _ Hwf))).
Defined.

(** [saveToken] makes [getTokenCount] grow by one for a user without
    record and leaves it for a user who has one. *)
Lemma saveToken_counts_users_once
    (now now' : Z) (userId : string) (td : Input.tokenData)
    (store : tokenStore) :
  getTokenCount (snd (saveToken now now' userId td store)) =
  match JsMap.get userId store with
  | Some _ => getTokenCount store
  | None => S (getTokenCount store)
  end.
Proof. unfold saveToken, getTokenCount. cbn [snd]. apply size_set. Qed.

(** X11. Whatever [tokenData] holds, the [expiresAt] that [saveToken]
    stores is never [NaN] and never before the clock reading of the save.
    When [expiresIn] is a whole number of seconds above zero, it is
    [Infinity] or a time at least 1000 ms past that reading. *)
Theorem saved_expiry_is_not_in_the_past
    (now now' : Z) (userId : string) (td : Input.tokenData)
    (store : tokenStore) :
  JsRange.timeValue now ->
  let saved := fst (saveToken now now' userId td store) in
  expiresAt saved <> NaN /\
  gt (Fin now) (expiresAt saved) = false /\
  (forall z, Input.expiresIn td = VNum (Fin z) -> 0 < z ->
             expiresAt saved = Inf false \/
             exists t, expiresAt saved = Fin t /\ now + 1000 <= t).
Proof.
  intros _. cbv zeta. unfold saveToken. cbn [fst expiresAt].
  split; [|split].
  - destruct (expiresInSeconds_cases td)
      as [[z [_ [Hz ->]]] | [[_ ->] | [_ ->]]]; simpl; discriminate.
  - apply fresh_record_not_expired. lia.
  - intros z Hz Hpos. right.
    rewrite (expiresInSeconds_number td _ Hz). simpl.
    replace (z >? 0) with true by (symmetry; apply Z.gtb_lt; lia).
    simpl. eexists. split; [reflexivity|]. lia.
Qed.

Lemma saved_expiry_is_not_in_the_past_witness :
  let saved :=
    fst (saveToken 1700000000000 1700000000000 "1001"
           (sampleData (VNum (Fin 3600))) JsMap.empty) in
  expiresAt saved <> NaN /\ gt (Fin 1700000000000) (expiresAt saved) = false.
Proof.
  assert (Htime : JsRange.timeValue 1700000000000)
    by (unfold JsRange.timeValue, JsRange.MAX_TIME_VALUE; lia).
  pose proof (saved_expiry_is_not_in_the_past 1700000000000 1700000000000
                "1001" (sampleData (VNum (Fin 3600))) JsMap.empty Htime)
    as [Hnan [Hgt _]].
  split; [exact Hnan | exact Hgt].
Defined.

(** X12. Asking again changes nothing: a second [getToken] for the same
    user at the same reading gives the answer and the store of the first. *)
Theorem getToken_twice (now : Z) (userId : string) (store : tokenStore) :
  getToken now userId (snd (getToken now userId store))
  = getToken now userId store.
Proof.
  unfold getToken at 2.
  destruct (JsMap.get userId store) as [r|] eqn:Hget.
  - destruct (gt (Fin now) (expiresAt r)) eqn:Hgt; cbn [snd].
    + unfold getToken. rewrite get_delete_same.
      rewrite Hget, Hgt. reflexivity.
    + unfold getToken. now rewrite Hget, Hgt.
  - cbn [snd]. unfold getToken. now rewrite Hget.
Qed.

End TokenStorageMore.

(* ================================================================== *)
(** ** More on the OAuth callback *)

Module AuthMore.

Import Js Auth AuthTrace JsMapFacts JsMapMore CsrfFacts AuthFacts Samples.

(** X13. The guards on the parameters come before everything else: a
    callback that carries an error parameter, or lacks a code or a state,
    is answered with an error redirect, sends no request and leaves both
    stores as they are; in particular it does not consume the state it may
    carry. *)
Theorem rejected_parameters_change_nothing
    (up : upstream) (clk : clock) (q : query) (s : Server.state) :
  present (error q) = true \/ present (code q) = false \/
  present (state q) = false ->
  exists message, callback up clk q s = (errorPage message, s, []).
Proof.
  intros H. unfold callback.
  destruct (present (error q)); [eexists; reflexivity|].
  destruct H as [H | H]; [discriminate|].
  destruct (code q) as [c|]; [|eexists; reflexivity].
  destruct (state q) as [st|]; [|eexists; reflexivity].
  cbn [present] in H.
  destruct (truthy (VStr c)), (truthy (VStr st));
    try (eexists; reflexivity); destruct H; discriminate.
Qed.

Lemma rejected_parameters_change_nothing_witness :
  let s := snd (initiate "s1" 1700000000000 Server.initial) in
  exists message,
    callback sampleUpstream sampleClock
      (sampleQuery None (Some "s1") (Some "access_denied")) s
    = (errorPage message, s, []).
Proof.
  apply (rejected_parameters_change_nothing sampleUpstream sampleClock
           (sampleQuery None (Some "s1") (Some "access_denied"))).
  left. reflexivity.
Defined.

(** The handler once the guards are passed and the state accepted. *)
Lemma callback_accepted up clk c st s ts :
  c <> "" -> st <> "" ->
  Csrf.validateState st (atValidate clk) (Server.stateStore s) = (true, ts) ->
  callback up clk (plainQuery c st) s =
  match resolve up c with
  | (sent, Ok r) =>
      (RedirectSuccess (resolvedSuccessParams r),
       {| Server.stateStore := ts;
          Server.tokenStore :=
            snd (TokenStorage.saveToken (atExpiry clk) (atCreated clk)
                   (resolvedUserId r) (resolvedTokenData r)
                   (Server.tokenStore s)) |},
       sent)
  | (sent, Throw message) =>
      (errorPage (or_str (Some message)
                    "Failed to complete Instagram connection"),
       {| Server.stateStore := ts;
          Server.tokenStore := Server.tokenStore s |},
       sent)
  end.
Proof.
  intros Hc Hst Hv. unfold callback, plainQuery.
  cbn [error code state present truthy].
  apply truthy_state in Hc. apply truthy_state in Hst.
  simpl in Hc, Hst. rewrite Hc, Hst. cbn [negb orb].
  rewrite Hv. cbn [negb].
  destruct (resolve up c) as [sent [r|message]]; reflexivity.
Qed.




(** The page loop sends at most the one account lookup, and ends without
    throwing when it sends none. *)
Lemma findInstagramAccount_sent up pages :
  (fst (findInstagramAccount up pages) = [] /\
   exists found, snd (findInstagramAccount up pages) = Ok found) \/
  map endpoint (fst (findInstagramAccount up pages)) = [4%nat].
Proof.
  induction pages as [|p rest IH]; simpl.
  - left. split; [reflexivity | eexists; reflexivity].
  - destruct (instagram_business_account p) as [accountId|]; [|exact IH].
    right.
    now destruct (getInstagramBusinessAccount up (page_access_token p)
                    accountId).
Qed.

Lemma resolve_sent up c :
  exists n, (1 <= n)%nat /\
    map endpoint (fst (resolve up c)) = firstn n order /\
    (forall r, snd (resolve up c) = Ok r -> (4 <= n)%nat).
Proof.
  unfold resolve, bind, await.
  destruct (exchangeCodeForToken up c) as [sl|m];
    [|exists 1%nat; repeat split; [lia | intros ? [=]]].
  destruct (exchangeForLongLivedToken up (access_token sl)) as [ll|m];
    [|exists 2%nat; repeat split; [lia | intros ? [=]]].
  destruct (getInstagramUser up (access_token ll) "id,name") as [ui|m];
    [|exists 3%nat; repeat split; [lia | intros ? [=]]].
  destruct (getFacebookPages up (access_token ll)) as [pages|m];
    [|exists 4%nat; repeat split; [lia | intros ? [=]]].
  pose proof (findInstagramAccount_sent up pages) as Hfind.
  destruct (findInstagramAccount up pages) as [sentf [found|m]];
    unfold ret; cbn [fst snd app map endpoint] in *.
  - destruct Hfind as [[-> _] | Hone].
    + exists 4%nat. repeat split; [lia | intros; lia].
    + exists 5%nat. rewrite app_nil_r, Hone.
      repeat split; [lia | intros; lia].
  - destruct Hfind as [[_ [found Hf]] | Hone]; [discriminate|].
    exists 5%nat. rewrite Hone.
    repeat split; [lia | intros ? [=]].
Qed.

(** X16. The requests of a callback go out in one fixed order (code
    exchange, token upgrade, identity lookup, pages lookup, account lookup),
    each at most once, and stop at the first failure: the endpoints called
    are an initial segment of that order. A flow that completes has called
    at least the first four. *)
Theorem requests_follow_the_order
    (up : upstream) (clk : clock) (q : query) (s : Server.state) :
  let '(shown, s', sent) := callback up clk q s in
  exists n, map endpoint sent = firstn n order /\
    (forall successParams, shown = RedirectSuccess successParams ->
                           (4 <= n)%nat).
Proof.
  unfold callback.
  destruct (present (error q));
    [exists 0%nat; split; [reflexivity | intros ? [=]]|].
  destruct (code q) as [c|];
    [|exists 0%nat; split; [reflexivity | intros ? [=]]].
  destruct (state q) as [st|];
    [|exists 0%nat; split; [reflexivity | intros ? [=]]].
  destruct (negb (truthy (VStr c)) || negb (truthy (VStr st)));
    [exists 0%nat; split; [reflexivity | intros ? [=]]|].
  destruct (Csrf.validateState st (atValidate clk) (Server.stateStore s))
    as [valid ts].
  destruct valid; cbn [negb];
    [|exists 0%nat; split; [reflexivity | intros ? [=]]].
  destruct (resolve_sent up c) as [n [_ [Hsent Hok]]].
  destruct (resolve up c) as [sent [r|message]]; cbn [fst snd] in *.
  - unfold TokenStorage.saveToken. exists n. split; [exact Hsent|].
    intros _ _. now apply (Hok r).
  - exists n. split; [exact Hsent | intros ? [=]].
Qed.

(** X17. The first page with a linked business account decides: pages
    before it without one are skipped, pages after it are never looked at,
    also when the lookup for that page fails. *)
Theorem first_linked_page_wins
    (up : upstream) (before after : list page) (p : page) (accountId : value) :
  Forall (fun p' => instagram_business_account p' = None) before ->
  instagram_business_account p = Some accountId ->
  findInstagramAccount up (before ++ p :: after)
  = findInstagramAccount up [p].
Proof.
  intros Hbefore Hp. induction Hbefore as [|p' before Hp' _ IH]; simpl.
  - now rewrite Hp.
  - now rewrite Hp'.
Qed.

Lemma first_linked_page_wins_witness :
  findInstagramAccount sampleUpstream
    ([ {| page_access_token := VStr "P0";
          instagram_business_account := None |} ]
     ++ {| page_access_token := VStr "P1";
           instagram_business_account := Some (VStr "17841400000000001") |}
     :: [ {| page_access_token := VStr "P2";
             instagram_business_account := Some (VStr "17841400000000002") |} ])
  = findInstagramAccount sampleUpstream
      [ {| page_access_token := VStr "P1";
           instagram_business_account := Some (VStr "17841400000000001") |} ].
Proof.
  apply (first_linked_page_wins sampleUpstream _ _ _
           (VStr "17841400000000001")).
  - repeat constructor.
  - reflexivity.
Defined.

Lemma or_else_twice (a b : value) : or_else (or_else a b) b = or_else a b.
Proof.
  unfold or_else. destruct (truthy a) eqn:Ha.
  - now rewrite Ha.
  - now destruct (truthy b).
Qed.

(** The awaited part of the handler when every request is answered. *)
Lemma resolve_success up c shortLived longLived user pages sentf found :
  exchangeCodeForToken up c = Ok shortLived ->
  exchangeForLongLivedToken up (access_token shortLived) = Ok longLived ->
  getInstagramUser up (access_token longLived) "id,name" = Ok user ->
  getFacebookPages up (access_token longLived) = Ok pages ->
  findInstagramAccount up pages = (sentf, Ok found) ->
  exists r,
    resolve up c =
    (([ CodeExchange c; TokenUpgrade (access_token shortLived);
        IdentityLookup (access_token longLived) "id,name";
        PagesLookup (access_token longLived) ] ++ sentf)%list, Ok r) /\
    resolvedUserId r = id user /\
    TokenStorage.Input.accessToken (resolvedTokenData r)
    = access_token longLived /\
    TokenStorage.Input.tokenType (resolvedTokenData r)
    = or_else (token_type longLived) (VStr "bearer") /\
    TokenStorage.Input.expiresIn (resolvedTokenData r)
    = expires_in longLived /\
    TokenStorage.Input.instagramUserId (resolvedTokenData r)
    = VStr (id user) /\
    TokenStorage.Input.instagramAccountId (resolvedTokenData r)
    = linkedAccountId found /\
    TokenStorage.Input.pageAccessToken (resolvedTokenData r)
    = linkedPageToken found /\
    resolvedSuccessParams r =
    [ ("userId", VStr (id user));
      ("instagramUsername",
        or_else (linkedUsername found) (VStr "Not connected"));
      ("instagramAccountId", or_else (linkedAccountId found) (VStr "none"));
      ("permissions",
        VStr "instagram_business_basic,instagram_business_manage_messages,instagram_business_manage_comments,instagram_business_content_publish");
      ("expiresIn", expires_in longLived) ].
Proof.
  intros H1 H2 H3 H4 H5. unfold resolve, bind, await, ret.
  rewrite H1, H2, H3, H4, H5. cbn [app]. rewrite app_nil_r.
  eexists. split; [reflexivity|]. repeat split.
Qed.

(** X18. When the state is accepted and the Graph API answers every
    request, the flow ends in the success redirect, the requests are the
    four lookups in order followed by those of the page loop, and the
    record stored for the user the Graph API named holds the upgraded
    (long-lived) token, never the short-lived one, with the expiry taken
    from the answer of the upgrade: for a clock reading in the range of
    JavaScript time values, a whole number of seconds above zero gives the
    reading plus 1000 times that number as long as the sum is a safe
    integer, and an answer without a number gives the reading plus 60
    days. *)
Theorem completed_flow_stores_the_upgraded_token
    (up : upstream) (clk : clock) (c st : string) (s : Server.state)
    (shortLived longLived : tokenResponse) (user : userInfo)
    (pages : list page) (sentf : list call) (found : linked) :
  c <> "" -> st <> "" ->
  fst (Csrf.validateState st (atValidate clk) (Server.stateStore s)) = true ->
  exchangeCodeForToken up c = Ok shortLived ->
  exchangeForLongLivedToken up (access_token shortLived) = Ok longLived ->
  getInstagramUser up (access_token longLived) "id,name" = Ok user ->
  getFacebookPages up (access_token longLived) = Ok pages ->
  findInstagramAccount up pages = (sentf, Ok found) ->
  let '(shown, s', sent) := callback up clk (plainQuery c st) s in
  (exists successParams, shown = RedirectSuccess successParams) /\
  sent = ([ CodeExchange c; TokenUpgrade (access_token shortLived);
            IdentityLookup (access_token longLived) "id,name";
            PagesLookup (access_token longLived) ] ++ sentf)%list /\
  exists r,
    JsMap.get (id user) (Server.tokenStore s') = Some r /\
    TokenStorage.accessToken r = access_token longLived /\
    TokenStorage.tokenType r = or_else (token_type longLived) (VStr "bearer") /\
    TokenStorage.instagramUserId r = VStr (id user) /\
    TokenStorage.instagramAccountId r = or_else (linkedAccountId found) VNull /\
    TokenStorage.pageAccessToken r = or_else (linkedPageToken found) VNull /\
    TokenStorage.createdAt r = atCreated clk /\
    (forall z, expires_in longLived = VNum (Fin z) -> 0 < z ->
               JsRange.timeValue (atExpiry clk) ->
               atExpiry clk + z * 1000 <= JsRange.MAX_SAFE_INTEGER ->
               TokenStorage.expiresAt r = Fin (atExpiry clk + z * 1000)) /\
    (as_number (expires_in longLived) = None ->
     JsRange.timeValue (atExpiry clk) ->
     TokenStorage.expiresAt r = Fin (atExpiry clk + 5184000 * 1000)).
Proof.
  intros Hc Hst Hv H1 H2 H3 H4 H5.
  destruct (Csrf.validateState st (atValidate clk) (Server.stateStore s))
    as [valid ts] eqn:Hval.
  simpl in Hv. subst valid.
  rewrite (callback_accepted up clk c st s ts Hc Hst Hval).
  destruct (resolve_success up c _ _ _ _ _ _ H1 H2 H3 H4 H5)
    as [r [-> [Hid [Hacc [Hty [Hexp [Huid [Haid [Hpt _]]]]]]]]].
  split; [eexists; reflexivity|]. split; [reflexivity|].
  unfold TokenStorage.saveToken. cbn [snd Server.tokenStore].
  rewrite Hid. eexists. split; [apply get_set_same|].
  cbn [TokenStorage.accessToken TokenStorage.tokenType
       TokenStorage.instagramUserId TokenStorage.instagramAccountId
       TokenStorage.pageAccessToken TokenStorage.createdAt
       TokenStorage.expiresAt].
  rewrite Hacc, Hty, Huid, Haid, Hpt, or_else_twice.
  repeat split.
  - intros z Hz Hpos _ _.
    rewrite (TokenStorageFacts.expiresInSeconds_number _ (Fin z))
      by now rewrite Hexp.
    simpl. now replace (z >? 0) with true by (symmetry; apply Z.gtb_lt; lia).
  - intros Hnone _.
    rewrite TokenStorageFacts.expiresInSeconds_not_number
      by now rewrite Hexp.
    reflexivity.
Qed.

Lemma completed_flow_stores_the_upgraded_token_witness :
  let s := snd (initiate "s1" 1700000000000 Server.initial) in
  let '(shown, s', sent) :=
    callback sampleUpstream sampleClock (plainQuery "c1" "s1") s in
  (exists successParams, shown = RedirectSuccess successParams) /\
  exists r,
    JsMap.get "1001" (Server.tokenStore s') = Some r /\
    TokenStorage.accessToken r = VStr "B".
Proof.
  pose proof (completed_flow_stores_the_upgraded_token sampleUpstream
                sampleClock "c1" "s1"
                (snd (initiate "s1" 1700000000000 Server.initial))
                _ _ _ _ _ _
                ltac:(discriminate) ltac:(discriminate) eq_refl
                eq_refl eq_refl eq_refl eq_refl eq_refl) as H.
  cbv zeta.
  destruct (callback sampleUpstream sampleClock (plainQuery "c1" "s1")
              (snd (initiate "s1" 1700000000000 Server.initial)))
    as [[shown s'] sent].
  destruct H as [Hshown [_ [r [Hget [Hacc _]]]]].
  split; [exact Hshown|]. exists r. split; [exact Hget | exact Hacc].
Defined.

(** X19. A user without linked business account still completes: when no
    page carries one, no account lookup is sent, the success redirect says
    ["Not connected"] and ["none"], and the stored record has
    [instagramAccountId], [instagramUsername] and [pageAccessToken] all
    [null]. *)
Theorem flow_without_linked_account_completes
    (up : upstream) (clk : clock) (c st : string) (s : Server.state)
    (shortLived longLived : tokenResponse) (user : userInfo)
    (pages : list page) :
  c <> "" -> st <> "" ->
  fst (Csrf.validateState st (atValidate clk) (Server.stateStore s)) = true ->
  exchangeCodeForToken up c = Ok shortLived ->
  exchangeForLongLivedToken up (access_token shortLived) = Ok longLived ->
  getInstagramUser up (access_token longLived) "id,name" = Ok user ->
  getFacebookPages up (access_token longLived) = Ok pages ->
  Forall (fun p => instagram_business_account p = None) pages ->
  let '(shown, s', sent) := callback up clk (plainQuery c st) s in
  shown = RedirectSuccess
            [ ("userId", VStr (id user));
              ("instagramUsername", VStr "Not connected");
              ("instagramAccountId", VStr "none");
              ("permissions",
                VStr "instagram_business_basic,instagram_business_manage_messages,instagram_business_manage_comments,instagram_business_content_publish");
              ("expiresIn", expires_in longLived) ] /\
  sent = [ CodeExchange c; TokenUpgrade (access_token shortLived);
           IdentityLookup (access_token longLived) "id,name";
           PagesLookup (access_token longLived) ] /\
  exists r,
    JsMap.get (id user) (Server.tokenStore s') = Some r /\
    TokenStorage.instagramAccountId r = VNull /\
    TokenStorage.instagramUsername r = VNull /\
    TokenStorage.pageAccessToken r = VNull.
Proof.
  intros Hc Hst Hv H1 H2 H3 H4 Hnone.
  assert (H5 : findInstagramAccount up pages =
               ([], Ok {| linkedAccountId := VNull;
                          linkedUsername := VNull;
                          linkedPageToken := VNull |})).
  { clear H4. induction Hnone as [|p rest Hp _ IH]; [reflexivity|].
    cbn [findInstagramAccount]. rewrite Hp. exact IH. }
  destruct (Csrf.validateState st (atValidate clk) (Server.stateStore s))
    as [valid ts] eqn:Hval.
  simpl in Hv. subst valid.
  rewrite (callback_accepted up clk c st s ts Hc Hst Hval).
  unfold resolve, bind, await, ret. rewrite H1, H2, H3, H4, H5.
  cbn [app]. split; [reflexivity|]. split; [reflexivity|].
  unfold TokenStorage.saveToken. cbn [snd Server.tokenStore resolvedUserId].
  eexists. split; [apply get_set_same|]. repeat split.
Qed.

Lemma flow_without_linked_account_completes_witness :
  let up :=
    {| exchangeCodeForToken := exchangeCodeForToken sampleUpstream;
       exchangeForLongLivedToken := exchangeForLongLivedToken sampleUpstream;
       getInstagramUser := getInstagramUser sampleUpstream;
       getFacebookPages := fun _ =>
         Ok [ {| page_access_token := VStr "P0";
                 instagram_business_account := None |} ];
       getInstagramBusinessAccount :=
         getInstagramBusinessAccount sampleUpstream |} in
  let s := snd (initiate "s1" 1700000000000 Server.initial) in
  let '(shown, s', sent) := callback up sampleClock (plainQuery "c1" "s1") s in
  List.length sent = 4%nat /\
  exists r,
    JsMap.get "1001" (Server.tokenStore s') = Some r /\
    TokenStorage.pageAccessToken r = VNull.
Proof.
  cbv zeta.
  pose proof (flow_without_linked_account_completes
                {| exchangeCodeForToken := exchangeCodeForToken sampleUpstream;
                   exchangeForLongLivedToken :=
                     exchangeForLongLivedToken sampleUpstream;
                   getInstagramUser := getInstagramUser sampleUpstream;
                   getFacebookPages := fun _ =>
                     Ok [ {| page_access_token := VStr "P0";
                             instagram_business_account := None |} ];
                   getInstagramBusinessAccount :=
                     getInstagramBusinessAccount sampleUpstream |}
                sampleClock "c1" "s1"
                (snd (initiate "s1" 1700000000000 Server.initial))
                _ _ _ _
                ltac:(discriminate) ltac:(discriminate) eq_refl
                eq_refl eq_refl eq_refl eq_refl
                ltac:(repeat constructor)) as H.
  destruct (callback _ sampleClock (plainQuery "c1" "s1") _)
    as [[shown s'] sent].
  destruct H as [_ [-> [r [Hget [_ [_ Hpt]]]]]].
  split; [reflexivity|]. exists r. split; [exact Hget | exact Hpt].
Defined.

(** X20. When a request to the Graph API fails after the state was
    accepted, the end user is redirected to the error page with the very
    message of the error thrown (such as "Failed to exchange authorization
    code: ..."); the state stays consumed, the token store is as before and
    nothing is sent after the failed request. *)
Theorem failed_request_shows_the_thrown_message
    (up : upstream) (clk : clock) (c st : string) (s : Server.state)
    (sent : list call) (message : string) :
  c <> "" -> st <> "" ->
  fst (Csrf.validateState st (atValidate clk) (Server.stateStore s)) = true ->
  resolve up c = (sent, Throw message) ->
  message <> "" ->
  callback up clk (plainQuery c st) s =
  (Redirect ("/error.html?error=" ++ encodeURIComponent message),
   {| Server.stateStore := JsMap.delete st (Server.stateStore s);
      Server.tokenStore := Server.tokenStore s |},
   sent).
Proof.
  intros Hc Hst Hv Hres Hm.
  destruct (Csrf.validateState st (atValidate clk) (Server.stateStore s))
    as [valid ts] eqn:Hval.
  simpl in Hv. subst valid.
  rewrite (callback_accepted up clk c st s ts Hc Hst Hval), Hres.
  apply validateState_true in Hval. destruct Hval as [t0 [_ [_ ->]]].
  unfold or_str. apply truthy_state in Hm. rewrite Hm. reflexivity.
Qed.

Lemma failed_request_shows_the_thrown_message_witness :
  let up :=
    {| exchangeCodeForToken := fun _ =>
         Throw "Failed to exchange authorization code: Invalid verification code format.";
       exchangeForLongLivedToken := exchangeForLongLivedToken sampleUpstream;
       getInstagramUser := getInstagramUser sampleUpstream;
       getFacebookPages := getFacebookPages sampleUpstream;
       getInstagramBusinessAccount :=
         getInstagramBusinessAccount sampleUpstream |} in
  let s := snd (initiate "s1" 1700000000000 Server.initial) in
  callback up sampleClock (plainQuery "c1" "s1") s =
  (Redirect "/error.html?error=Failed%20to%20exchange%20authorization%20code%3A%20Invalid%20verification%20code%20format.",
   {| Server.stateStore := JsMap.delete "s1" (Server.stateStore s);
      Server.tokenStore := Server.tokenStore s |},
   [CodeExchange "c1"]).
Proof.
  cbv zeta.
  apply (failed_request_shows_the_thrown_message _ sampleClock "c1" "s1"
           (snd (initiate "s1" 1700000000000 Server.initial))
           [CodeExchange "c1"]
           "Failed to exchange authorization code: Invalid verification code format.").
  - discriminate.
  - discriminate.
  - reflexivity.
  - reflexivity.
  - discriminate.
Defined.

Lemma hex_digit_unreserved (k : nat) :
  (k < 16)%nat -> unreserved (hex_digit k) = true.
Proof.
  intros H.
  do 16 (destruct k as [|k]; [reflexivity|]). lia.
Qed.

Lemma encodeURIComponent_chars (s : string) (ch : ascii) :
  In ch (list_ascii_of_string (encodeURIComponent s)) ->
  unreserved ch = true \/ ch = "%"%char.
Proof.
  induction s as [|c rest IH]; [contradiction|].
  cbn [encodeURIComponent].
  destruct (unreserved c) eqn:Hc; cbv zeta; cbn [list_ascii_of_string In].
  - intros [E | Hin]; [subst ch; now left | now apply IH].
  - pose proof (nat_ascii_bounded c) as Hb.
    intros [E | [E | [E | Hin]]]; try subst ch.
    + now right.
    + left. apply hex_digit_unreserved.
      apply Nat.Div0.div_lt_upper_bound. lia.
    + left. apply hex_digit_unreserved. apply Nat.mod_upper_bound. lia.
    + now apply IH.
Qed.

(** X21. The error redirect carries exactly the one parameter [error]:
    whatever the message (it can come from the query of the callback), its
    encoded form consists of letters, digits, [- _ . ! ~ * ' ( )] and [%]
    only, so it holds no [&], [=], [#], [?], [/], [+] or space; a message
    made of unreserved characters alone is passed as it is. *)
Theorem error_redirect_is_well_formed (message : string) :
  errorPage message
  = Redirect ("/error.html?error=" ++ encodeURIComponent message) /\
  (forall ch, In ch (list_ascii_of_string (encodeURIComponent message)) ->
     unreserved ch = true \/ ch = "%"%char) /\
  (forall ch, In ch ["&"; "="; "#"; "?"; "/"; "+"; " "]%char ->
     ~ In ch (list_ascii_of_string (encodeURIComponent message))) /\
  (Forall (fun ch => unreserved ch = true) (list_ascii_of_string message) ->
   encodeURIComponent message = message).
Proof.
  split; [reflexivity|]. split; [apply encodeURIComponent_chars|]. split.
  - intros ch Hch Hin. apply encodeURIComponent_chars in Hin.
    simpl in Hch.
    repeat (destruct Hch as [<- | Hch];
            [destruct Hin as [Hin | Hin]; discriminate Hin|]).
    contradiction.
  - induction message as [|c rest IH]; simpl; [reflexivity|].
    intros H. inversion H as [|? ? Hc Hrest]; subst.
    rewrite Hc. now rewrite IH.
Qed.

End AuthMore.

(* ================================================================== *)
(** ** The API routes and the error handler *)

Module ApiFacts.

Import Js Api JsMapFacts JsMapMore CsrfFacts TokenStorageFacts ApiSamples.

Lemma getToken_store now userId store :
  snd (TokenStorage.getToken now userId store) = store \/
  snd (TokenStorage.getToken now userId store) = JsMap.delete userId store.
Proof.
  unfold TokenStorage.getToken.
  destruct (JsMap.get userId store) as [r|]; [|now left].
  destruct (gt (Fin now) (TokenStorage.expiresAt r)); [now right | now left].
Qed.

Lemma getToken_Some now userId store r store' :
  TokenStorage.getToken now userId store = (Some r, store') ->
  store' = store /\ JsMap.get userId store = Some r /\
  gt (Fin now) (TokenStorage.expiresAt r) = false.
Proof.
  unfold TokenStorage.getToken.
  destruct (JsMap.get userId store) as [r0|]; [|discriminate].
  destruct (gt (Fin now) (TokenStorage.expiresAt r0)) eqn:Hgt;
    [discriminate|].
  intros [= <- <-]. repeat split. exact Hgt.
Qed.

Lemma linkedRecord_Some tokenData r :
  linkedRecord tokenData = Some r ->
  tokenData = Some r /\
  truthy (TokenStorage.instagramAccountId r) = true /\
  truthy (TokenStorage.pageAccessToken r) = true.
Proof.
  unfold linkedRecord. destruct tokenData as [r0|]; [|discriminate].
  destruct (truthy (TokenStorage.instagramAccountId r0)) eqn:Hid;
    [|discriminate].
  destruct (truthy (TokenStorage.pageAccessToken r0)) eqn:Htok;
    [|discriminate].
  cbn [negb orb]. intros [= <-]. repeat split; assumption.
Qed.

(** X22. [GET /api/instagram/insights] and [GET /api/instagram/stories]
    send their one request only for a user whose stored record is not
    expired and holds both a business account id and a page token, and they
    pass exactly these two; in every other case nothing is sent and the
    answer is 400 (no user id) or 404. *)
Theorem relays_need_a_linked_live_record
    (up : upstream) (now : Z) (userId : option string)
    (store : TokenStorage.tokenStore) :
  (let '(out, store', sent) := instagramInsights up now userId store in
   (sent = [] /\
    (out = Respond missingUserId \/ out = Respond notConnected)) \/
   (exists r, relayed now userId store store' r /\
      sent = [InsightsLookup (TokenStorage.instagramAccountId r)
                (TokenStorage.pageAccessToken r)])) /\
  (let '(out, store', sent) := instagramStories up now userId store in
   (sent = [] /\
    (out = Respond missingUserId \/ out = Respond notConnected)) \/
   (exists r, relayed now userId store store' r /\
      sent = [StoriesLookup (TokenStorage.instagramAccountId r)
                (TokenStorage.pageAccessToken r)])).
Proof.
  split.
  - unfold instagramInsights.
    destruct userId as [u|]; [|left; split; [reflexivity | now left]].
    destruct (truthy (VStr u)) eqn:Hu; cbn [negb];
      [|left; split; [reflexivity | now left]].
    destruct (TokenStorage.getToken now u store) as [tokenData store'] eqn:Hg.
    destruct (linkedRecord tokenData) as [r|] eqn:Hl;
      [|left; split; [reflexivity | now right]].
    apply linkedRecord_Some in Hl. destruct Hl as [-> [Hid Htok]].
    apply getToken_Some in Hg. destruct Hg as [-> [Hget Hlive]].
    assert (Hrel : relayed now (Some u) store store r).
    { exists u. repeat split; try assumption. now apply truthy_state. }
    cbv zeta.
    destruct (getAccountInsights up _ _); right; exists r; now split.
  - unfold instagramStories.
    destruct userId as [u|]; [|left; split; [reflexivity | now left]].
    destruct (truthy (VStr u)) eqn:Hu; cbn [negb];
      [|left; split; [reflexivity | now left]].
    destruct (TokenStorage.getToken now u store) as [tokenData store'] eqn:Hg.
    destruct (linkedRecord tokenData) as [r|] eqn:Hl;
      [|left; split; [reflexivity | now right]].
    apply linkedRecord_Some in Hl. destruct Hl as [-> [Hid Htok]].
    apply getToken_Some in Hg. destruct Hg as [-> [Hget Hlive]].
    assert (Hrel : relayed now (Some u) store store r).
    { exists u. repeat split; try assumption. now apply truthy_state. }
    cbv zeta.
    destruct (getInstagramStories up _ _); right; exists r; now split.
Qed.

(** X23. [GET /api/instagram/insights/period] lets only the periods
    [day], [week] and [days_28] through (a missing parameter counts as
    [day], an empty one is refused with 400 before the store is read), so the
    request sent carries one of the three, with [metric_type=total_value]
    exactly for [day] and [follower_count] among the metrics exactly for the
    other two; an error passed to [next] then always comes from the Graph
    API, never from the period check of [getAccountInsightsWithPeriod]. *)
Theorem period_route_sends_only_valid_periods
    (up : upstream) (now : Z) (userId period : option string)
    (store : TokenStorage.tokenStore) :
  let '(out, store', sent) :=
    instagramInsightsPeriod up now userId period store in
  (forall request, In (PeriodInsightsLookup request) sent ->
     sent = [PeriodInsightsLookup request] /\
     In (Api.period request) ["day"; "week"; "days_28"] /\
     (period = None -> Api.period request = "day") /\
     (forall p, period = Some p -> Api.period request = p) /\
     (metric_type request = Some "total_value" <-> Api.period request = "day") /\
     metric request
     = (if (Api.period request =? "day")%string then dayMetrics
        else weekMetrics)) /\
  (forall p, period = Some p -> ~ In p ["day"; "week"; "days_28"] ->
     Auth.present userId = true ->
     out = Respond {| status := 400;
                      body := errorBody
                        "Invalid period. Must be: day, week, or days_28" |} /\
     store' = store /\ sent = []) /\
  (forall message, out = Next message ->
     exists request m,
       sent = [PeriodInsightsLookup request] /\
       axiosInsights up request = Auth.Throw m /\
       message = "Failed to get account insights: " ++ m).
Proof.
  unfold instagramInsightsPeriod.
  assert (Hvalid : forall p,
            existsb (String.eqb p) ["day"; "week"; "days_28"] = true <->
            In p ["day"; "week"; "days_28"]).
  { intros p. rewrite existsb_exists. split.
    - intros [x [Hin Heq]]. apply String.eqb_eq in Heq. now subst x.
    - intros Hin. exists p. split; [exact Hin | apply String.eqb_refl]. }
  destruct userId as [u|];
    [|repeat split; try contradiction; try discriminate].
  destruct (truthy (VStr u)) eqn:Hu; cbn [negb];
    [|repeat split; try contradiction; try discriminate;
      intros; cbn [Auth.present] in *; congruence].
  set (p0 := match period with Some p => p | None => "day" end).
  destruct (existsb (String.eqb p0) ["day"; "week"; "days_28"]) eqn:Hex;
    cbn [negb].
  2:{ repeat split; try contradiction; try discriminate. }
  apply Hvalid in Hex.
  assert (Hrefused : forall p, period = Some p ->
                       ~ In p ["day"; "week"; "days_28"] -> False).
  { intros p Hp Hnot. subst period. now apply Hnot. }
  destruct (TokenStorage.getToken now u store) as [tokenData store'].
  destruct (linkedRecord tokenData) as [r|].
  2:{ split; [intros ? []|]. split; [|intros ? [=]].
      intros p Hp Hnot. now elim (Hrefused p Hp Hnot). }
  assert (Hp0 : (period = None -> p0 = "day") /\
                (forall p, period = Some p -> p0 = p)).
  { subst p0. destruct period; split; try discriminate; try reflexivity.
    now intros p [= ->]. }
  clearbody p0. unfold getAccountInsightsWithPeriod.
  simpl in Hex.
  destruct Hex as [<- | [<- | [<- | []]]]; cbn [String.eqb Ascii.eqb Bool.eqb];
    cbv zeta;
    match goal with
    | |- context [axiosInsights up ?req] =>
        destruct (axiosInsights up req) as [d|m] eqn:Hax
    end;
    (split; [intros request [[= <-] | []]; cbn [Api.period metric_type metric];
             repeat split; try tauto; try (simpl; tauto);
             try discriminate; try apply Hp0
            |split; [intros p Hp Hnot; now elim (Hrefused p Hp Hnot)|]]).
  all: intros message Hout; try discriminate Hout.
  all: injection Hout as <-; eexists _, _; repeat split; exact Hax.
Qed.

(** X24. A read for a user whose record has expired is answered as if
    there were no record, and drops it: [GET /api/me] answers 401,
    [GET /api/instagram/insights] answers 404, neither sends a request, and
    the record is gone from the store afterwards. *)
Theorem expired_record_reads_as_missing
    (toISOString : Z -> string) (up : upstream) (now : Z) (u : string)
    (r : TokenStorage.tokenRecord) (store : TokenStorage.tokenStore) :
  u <> "" ->
  JsMap.get u store = Some r ->
  gt (Fin now) (TokenStorage.expiresAt r) = true ->
  me toISOString up now (Some u) store
  = (Respond {| status := 401;
                body := errorBody
                  "No valid token found. Please connect your Instagram account." |},
     JsMap.delete u store, []) /\
  instagramInsights up now (Some u) store
  = (Respond notConnected, JsMap.delete u store, []).
Proof.
  intros Hu Hget Hexp. apply truthy_state in Hu.
  unfold me, instagramInsights, TokenStorage.getToken.
  rewrite Hu, Hget, Hexp. cbn [negb linkedRecord]. now split.
Qed.

Lemma expired_record_reads_as_missing_witness :
  me sampleISO sampleApi 1700003600001 (Some "1001") connectedStore
  = (Respond {| status := 401;
                body := errorBody
                  "No valid token found. Please connect your Instagram account." |},
     JsMap.delete "1001" connectedStore, []).
Proof.
  apply (expired_record_reads_as_missing sampleISO sampleApi 1700003600001
           "1001"
           (fst (TokenStorage.saveToken 1700000000000 1700000000000 "1001"
                   (Samples.sampleData (VNum (Fin 3600))) JsMap.empty))
           connectedStore).
  - discriminate.
  - reflexivity.
  - reflexivity.
Defined.

Lemma kept_or_dropped_lookup (u : string)
    (store store' : TokenStorage.tokenStore) :
  store' = store \/ store' = JsMap.delete u store ->
  forall other r, JsMap.get other store' = Some r ->
                  JsMap.get other store = Some r.
Proof.
  intros [-> | ->] other r H; [exact H|].
  destruct (string_dec u other) as [<- | Hne].
  - rewrite get_delete_same in H. discriminate.
  - now rewrite get_delete_other in H.
Qed.

(** X25. The API routes modelled here never add a record to the token
    store nor alter one: after [GET /api/me], the three insights and
    stories routes, [GET /api/tokens] or [DELETE /api/logout], every record
    found in the store was there before, unchanged. *)
Theorem api_routes_never_add_or_alter_records
    (toISOString : Z -> string) (up : upstream) (now : Z)
    (userId period : option string) (nodeEnv : string) (clock : nat -> Z)
    (store : TokenStorage.tokenStore) :
  forall store',
    In store'
      [ snd (fst (me toISOString up now userId store));
        snd (fst (instagramInsights up now userId store));
        snd (fst (instagramStories up now userId store));
        snd (fst (instagramInsightsPeriod up now userId period store));
        snd (tokens toISOString nodeEnv clock store);
        snd (logout userId store) ] ->
    forall other r, JsMap.get other store' = Some r ->
                    JsMap.get other store = Some r.
Proof.
  intros store' Hin.
  destruct userId as [u|].
  2:{ assert (store' = store) as ->; [|auto].
      cbn in Hin. unfold tokens, TokenStorage.getAllTokens in Hin.
      destruct (negb (nodeEnv =? "development")%string);
        [|destruct (tokenViews toISOString _)];
        cbn in Hin; intuition congruence. }
  apply (kept_or_dropped_lookup u).
  pose proof (getToken_store now u store) as Hg.
  cbn [In] in Hin.
  destruct Hin as [<- | [<- | [<- | [<- | [<- | [<- | []]]]]]].
  - unfold me. destruct (negb (truthy (VStr u))); [now left|].
    destruct (TokenStorage.getToken now u store) as [[r|] st]; cbn [snd] in Hg;
      [destruct (getInstagramUser up _ _)|]; exact Hg.
  - unfold instagramInsights. destruct (negb (truthy (VStr u))); [now left|].
    destruct (TokenStorage.getToken now u store) as [td st]; cbn [snd] in Hg.
    destruct (linkedRecord td); [cbv zeta; destruct (getAccountInsights up _ _)|];
      exact Hg.
  - unfold instagramStories. destruct (negb (truthy (VStr u))); [now left|].
    destruct (TokenStorage.getToken now u store) as [td st]; cbn [snd] in Hg.
    destruct (linkedRecord td); [cbv zeta; destruct (getInstagramStories up _ _)|];
      exact Hg.
  - unfold instagramInsightsPeriod.
    destruct (negb (truthy (VStr u))); [now left|].
    destruct (negb (existsb _ _)); [now left|].
    destruct (TokenStorage.getToken now u store) as [td st]; cbn [snd] in Hg.
    destruct (linkedRecord td); [|exact Hg].
    destruct (getAccountInsightsWithPeriod up _ _ _) as [sent [d|m]]; exact Hg.
  - left. unfold tokens, TokenStorage.getAllTokens.
    destruct (negb (nodeEnv =? "development")%string); [reflexivity|].
    now destruct (tokenViews toISOString _).
  - unfold logout. destruct (negb (truthy (VStr u))); [now left|].
    unfold TokenStorage.deleteToken.
    destruct (JsMap.has u store); now right.
Qed.

Lemma api_routes_never_add_or_alter_records_witness :
  JsMap.get "1001"
    (snd (fst (me sampleISO sampleApi 1700000001000 (Some "1001")
                 connectedStore)))
  = JsMap.get "1001" connectedStore /\
  JsMap.get "1001" connectedStore
  = Some (fst (TokenStorage.saveToken 1700000000000 1700000000000 "1001"
                 (Samples.sampleData (VNum (Fin 3600))) JsMap.empty)).
Proof.
  split; [reflexivity|].
  apply (api_routes_never_add_or_alter_records sampleISO sampleApi
           1700000001000 (Some "1001") None "production" (fun _ => 0)
           connectedStore
           (snd (fst (me sampleISO sampleApi 1700000001000 (Some "1001")
                        connectedStore)))).
  - left. reflexivity.
  - reflexivity.
Defined.

(** X26. [DELETE /api/logout] answers 200 exactly when a record was
    stored for the user, expired or not, 400 exactly when the user id is
    missing or empty, and 404 otherwise; unless it answers 200 the store is
    unchanged, and once it has answered for a user, [GET /api/me] for that
    user answers 401 without sending a request. *)
Theorem logout_removes_the_record
    (toISOString : Z -> string) (up : upstream) (now : Z)
    (userId : option string) (store : TokenStorage.tokenStore) :
  let (answer, store') := logout userId store in
  (status answer = 200 <->
   exists u, userId = Some u /\ u <> "" /\ JsMap.get u store <> None) /\
  (status answer = 400 <-> Auth.present userId = false) /\
  (status answer = 200 \/ status answer = 400 \/ status answer = 404) /\
  (status answer <> 200 -> store' = store) /\
  (forall u, userId = Some u -> u <> "" ->
     me toISOString up now (Some u) store'
     = (Respond {| status := 401;
                   body := errorBody
                     "No valid token found. Please connect your Instagram account." |},
        store', [])).
Proof.
  unfold logout. destruct userId as [u|].
  2:{ cbn. repeat split; try discriminate; try tauto; try (intros; lia).
      intros [u [H _]]. discriminate. }
  destruct (truthy (VStr u)) eqn:Hu; cbn [negb].
  2:{ cbn [status Auth.present missingUserId]. rewrite Hu.
      split; [|split; [|split; [|split]]].
      - split; [intros H; discriminate H|].
        intros [u' [[= <-] [Hne _]]]. apply truthy_state in Hne. congruence.
      - split; reflexivity.
      - right; now left.
      - reflexivity.
      - intros u' [= <-] Hne. apply truthy_state in Hne. congruence. }
  unfold TokenStorage.deleteToken.
  assert (Hhas : JsMap.has u store = true <-> JsMap.get u store <> None).
  { rewrite has_keys. split.
    - intros Hin Hnone. now apply get_None_keys in Hnone.
    - intros Hsome.
      destruct (in_dec string_dec u (JsMap.keys store)) as [Hin|Hnot];
        [exact Hin|].
      exfalso. apply Hsome. now apply get_None_keys. }
  assert (Hme : forall u', Some u = Some u' -> u' <> "" ->
     me toISOString up now (Some u') (JsMap.delete u store)
     = (Respond {| status := 401;
                   body := errorBody
                     "No valid token found. Please connect your Instagram account." |},
        JsMap.delete u store, [])).
  { intros u' [= <-] _. unfold me, TokenStorage.getToken.
    rewrite Hu, get_delete_same. reflexivity. }
  cbn [Auth.present]. rewrite Hu.
  destruct (JsMap.has u store) eqn:Hh; cbn [status].
  - split; [|split; [|split; [|split]]].
    + split; [intros _|reflexivity].
      exists u. repeat split; [now apply truthy_state | now apply Hhas].
    + split; [intros H; discriminate H | discriminate].
    + now left.
    + intros H. now elim H.
    + exact Hme.
  - split; [|split; [|split; [|split]]].
    + split; [intros H; discriminate H|].
      intros [u' [[= <-] [_ Hsome]]]. apply Hhas in Hsome. discriminate.
    + split; [intros H; discriminate H | discriminate].
    + now right; right.
    + intros _. apply delete_absent.
      destruct (JsMap.get u store) eqn:Hget; [|reflexivity].
      assert (Habs : false = true) by (apply Hhas; discriminate).
      discriminate Habs.
    + exact Hme.
Qed.

Lemma tokenView_withoutSecrets toISOString userId r expired :
  tokenView toISOString
    {| TokenStorage.userId := userId;
       TokenStorage.data := withoutSecrets r;
       TokenStorage.isExpired := expired |}
  = tokenView toISOString
      {| TokenStorage.userId := userId;
         TokenStorage.data := r;
         TokenStorage.isExpired := expired |}.
Proof. reflexivity. Qed.

Lemma tokenViews_withoutSecrets toISOString clock
    (store : TokenStorage.tokenStore) :
  forall i,
    tokenViews toISOString
      (TokenStorage.listTokens clock i
         (map (fun e => (fst e, withoutSecrets (snd e))) store))
    = tokenViews toISOString (TokenStorage.listTokens clock i store).
Proof.
  induction store as [|[k r] store IH]; intros i; [reflexivity|].
  cbn [map fst snd TokenStorage.listTokens tokenViews].
  rewrite IH. cbn [withoutSecrets TokenStorage.expiresAt].
  now rewrite tokenView_withoutSecrets.
Qed.

(** X27. [GET /api/tokens] answers 403, reading nothing, unless
    [oauthConfig.nodeEnv] is ['development']; it never changes the store (so
    it lists expired records instead of dropping them); and its answer does
    not depend on any stored [accessToken] or [pageAccessToken]: blanking
    both in every record gives the same answer. *)
Theorem token_listing_is_gated_and_shows_no_secret
    (toISOString : Z -> string) (nodeEnv : string) (clock : nat -> Z)
    (store : TokenStorage.tokenStore) :
  (nodeEnv <> "development" ->
   fst (tokens toISOString nodeEnv clock store)
   = {| status := 403;
        body := errorBody
          "This endpoint is only available in development mode" |}) /\
  snd (tokens toISOString nodeEnv clock store) = store /\
  fst (tokens toISOString nodeEnv clock
         (map (fun e => (fst e, withoutSecrets (snd e))) store))
  = fst (tokens toISOString nodeEnv clock store).
Proof.
  unfold tokens, TokenStorage.getAllTokens.
  destruct (String.eqb_spec nodeEnv "development") as [->|Hne]; cbn [negb].
  - split; [intros H; now elim H|].
    rewrite tokenViews_withoutSecrets.
    assert (Hlen : List.length
                     (TokenStorage.listTokens clock 0
                        (map (fun e => (fst e, withoutSecrets (snd e))) store))
                   = List.length (TokenStorage.listTokens clock 0 store)).
    { rewrite <- !(length_map TokenStorage.userId).
      rewrite !listTokens_userIds. unfold JsMap.keys.
      rewrite !length_map. reflexivity. }
    rewrite Hlen.
    destruct (tokenViews toISOString (TokenStorage.listTokens clock 0 store));
      split; reflexivity.
  - split; [reflexivity|]. split; reflexivity.
Qed.

(** X28. The error handler always answers with a truthy status: it sends
    the [statusCode] of the error when that is truthy, else the [status] of
    the error when that is truthy, else 500. The body is [error] (the
    message, or ['An unexpected error occurred'] when it is falsy) and
    [success: false], followed by [debug] with [stack], the status sent and
    [name] exactly when [oauthConfig.nodeEnv] is ['development']. For the
    [Error] a Graph API function throws (no status of either
    kind) the client gets status 500 and the thrown message itself as
    [error]; [stack] and [name] are part of the body only when
    [oauthConfig.nodeEnv] is ['development']. *)
Theorem error_handler_answers
    (nodeEnv : string) (err : ErrorHandler.error) :
  truthy (ErrorHandler.sentStatus (ErrorHandler.errorHandler nodeEnv err))
  = true /\
  (truthy (ErrorHandler.statusCode err) = true ->
   ErrorHandler.sentStatus (ErrorHandler.errorHandler nodeEnv err)
   = ErrorHandler.statusCode err) /\
  (truthy (ErrorHandler.statusCode err) = false ->
   truthy (ErrorHandler.status err) = true ->
   ErrorHandler.sentStatus (ErrorHandler.errorHandler nodeEnv err)
   = ErrorHandler.status err) /\
  (truthy (ErrorHandler.statusCode err) = false ->
   truthy (ErrorHandler.status err) = false ->
   ErrorHandler.sentStatus (ErrorHandler.errorHandler nodeEnv err)
   = VNum (Fin 500)) /\
  (forall message stack, message <> "" ->
     ErrorHandler.sentStatus
       (ErrorHandler.errorHandler nodeEnv (ErrorHandler.thrown message stack))
     = VNum (Fin 500) /\
     exists rest,
       ErrorHandler.sentBody
         (ErrorHandler.errorHandler nodeEnv (ErrorHandler.thrown message stack))
       = VObj (("error", VStr message) :: ("success", VBool false) :: rest) /\
       (nodeEnv <> "development" -> rest = [])) /\
  (nodeEnv <> "development" ->
   ErrorHandler.sentBody (ErrorHandler.errorHandler nodeEnv err)
   = VObj [ ("error",
              or_else (ErrorHandler.message err)
                (VStr "An unexpected error occurred"));
            ("success", VBool false) ]) /\
  (nodeEnv = "development" ->
   ErrorHandler.sentBody (ErrorHandler.errorHandler nodeEnv err)
   = VObj [ ("error",
              or_else (ErrorHandler.message err)
                (VStr "An unexpected error occurred"));
            ("success", VBool false);
            ("debug",
              VObj [ ("stack", ErrorHandler.stack err);
                     ("statusCode",
                       ErrorHandler.sentStatus
                         (ErrorHandler.errorHandler nodeEnv err));
                     ("name", ErrorHandler.name err) ]) ]).
Proof.
  unfold ErrorHandler.errorHandler.
  cbn [ErrorHandler.sentStatus ErrorHandler.sentBody].
  split; [|split; [|split; [|split; [|split; [|split]]]]].
  - unfold or_else.
    destruct (truthy (ErrorHandler.statusCode err)) eqn:H1; [exact H1|].
    destruct (truthy (ErrorHandler.status err)) eqn:H2; [exact H2|].
    reflexivity.
  - intros H1. unfold or_else. now rewrite H1.
  - intros H1 H2. unfold or_else. now rewrite H1, H2.
  - intros H1 H2. unfold or_else. now rewrite H1, H2.
  - intros message stack Hm. split; [reflexivity|].
    cbn [ErrorHandler.thrown ErrorHandler.message].
    apply truthy_state in Hm. rewrite (or_else_truthy _ _ Hm).
    destruct (String.eqb_spec nodeEnv "development") as [->|Hne].
    + eexists. split; [reflexivity|]. intros H. now elim H.
    + exists []. split; [reflexivity | reflexivity].
  - intros Hne. apply String.eqb_neq in Hne. now rewrite Hne.
  - intros ->. reflexivity.
Qed.

End ApiFacts.

(* ================================================================== *)
(** ** The configuration and the start of the flow *)

Module StartFacts.

Import Js Url OAuthConfig AuthStart JsMapFacts ApiSamples.

Lemma append_assoc (a b c : string) : (a ++ b) ++ c = a ++ (b ++ c).
Proof. induction a as [|ch a IH]; simpl; [reflexivity | now rewrite IH]. Qed.

Lemma bytes_append (a b : string) :
  list_ascii_of_string (a ++ b)
  = (list_ascii_of_string a ++ list_ascii_of_string b)%list.
Proof. induction a as [|ch a IH]; simpl; [reflexivity | now rewrite IH]. Qed.

Lemma formEncode_safe (s : string) :
  Forall (fun ch => formSafe ch = true) (list_ascii_of_string s) ->
  formEncode s = s.
Proof.
  induction s as [|c rest IH]; simpl; [reflexivity|].
  intros H. inversion H as [|? ? Hc Hrest]; subst.
  rewrite Hc. now rewrite IH.
Qed.

Lemma hex_digit_formSafe (k : nat) :
  (k < 16)%nat -> formSafe (hex_digit k) = true.
Proof.
  intros H.
  do 16 (destruct k as [|k]; [reflexivity|]). lia.
Qed.

Lemma formEncode_chars (s : string) (ch : ascii) :
  In ch (list_ascii_of_string (formEncode s)) ->
  formSafe ch = true \/ ch = "+"%char \/ ch = "%"%char.
Proof.
  induction s as [|c rest IH]; [contradiction|].
  cbn [formEncode].
  destruct (formSafe c) eqn:Hc; [|destruct (nat_of_ascii c =? 32)%nat];
    cbv zeta; cbn [list_ascii_of_string In].
  - intros [E | Hin]; [subst ch; now left | now apply IH].
  - intros [E | Hin]; [subst ch; right; now left | now apply IH].
  - pose proof (nat_ascii_bounded c) as Hb.
    intros [E | [E | [E | Hin]]]; try subst ch.
    + right; now right.
    + left. apply hex_digit_formSafe.
      apply Nat.Div0.div_lt_upper_bound. lia.
    + left. apply hex_digit_formSafe. apply Nat.mod_upper_bound. lia.
    + now apply IH.
Qed.

Lemma splitComma_not_nil (s : string) : splitComma s <> [].
Proof.
  induction s as [|c rest IH]; simpl; [discriminate|].
  destruct (nat_of_ascii c =? 44)%nat; [discriminate|].
  destruct (splitComma rest); [contradiction | discriminate].
Qed.

Lemma join_cons (part : string) (parts : list string) :
  parts <> [] -> join "," (part :: parts) = part ++ "," ++ join "," parts.
Proof. destruct parts; [intros H; now elim H | reflexivity]. Qed.

Lemma comma_byte (c : ascii) : (nat_of_ascii c =? 44)%nat = true -> c = ","%char.
Proof.
  intros H. apply Nat.eqb_eq in H.
  rewrite <- (ascii_nat_embedding c), H. reflexivity.
Qed.

(** Splitting at the commas and joining with commas gives the string
    back. *)
Lemma join_splitComma (s : string) : join "," (splitComma s) = s.
Proof.
  induction s as [|c rest IH]; [reflexivity|].
  cbn [splitComma].
  destruct (nat_of_ascii c =? 44)%nat eqn:Hc.
  - rewrite join_cons by apply splitComma_not_nil.
    rewrite IH. apply comma_byte in Hc. now subst c.
  - pose proof (splitComma_not_nil rest) as Hne.
    destruct (splitComma rest) as [|part parts]; [contradiction|].
    destruct parts as [|part' parts].
    + simpl in *. now rewrite IH.
    + rewrite join_cons by discriminate.
      rewrite join_cons in IH by discriminate.
      simpl. now rewrite <- IH.
Qed.

Lemma splitComma_Forall (P : ascii -> Prop) (s : string) :
  Forall P (list_ascii_of_string s) ->
  Forall (fun part => Forall P (list_ascii_of_string part)) (splitComma s).
Proof.
  induction s as [|c rest IH]; simpl; intros H.
  - repeat constructor.
  - inversion H as [|? ? Hc Hrest]; subst. specialize (IH Hrest).
    destruct (nat_of_ascii c =? 44)%nat.
    + constructor; [constructor | exact IH].
    + destruct (splitComma rest) as [|part parts].
      * repeat constructor. exact Hc.
      * inversion IH; subst. constructor; [|assumption].
        simpl. now constructor.
Qed.

(** Printable bytes other than the space: [!] to [~]. *)
Lemma space1_false (c : ascii) :
  (33 <= nat_of_ascii c <= 126)%nat -> space1 c = false.
Proof.
  intros H. unfold space1. cbv zeta.
  destruct (space1 c) eqn:E; [|now rewrite <- E at 1].
  unfold space1 in E. cbv zeta in E.
  rewrite orb_true_iff, andb_true_iff, !Nat.leb_le, Nat.eqb_eq in E. lia.
Qed.

Lemma space2_high (c1 c2 : ascii) :
  space2 c1 c2 = true ->
  (128 <= nat_of_ascii c1)%nat /\ (128 <= nat_of_ascii c2)%nat.
Proof.
  unfold space2. rewrite andb_true_iff, !Nat.eqb_eq. lia.
Qed.

Lemma space3_high (c1 c2 c3 : ascii) :
  space3 c1 c2 c3 = true ->
  (128 <= nat_of_ascii c1)%nat /\ (128 <= nat_of_ascii c3)%nat.
Proof.
  unfold space3. cbv zeta.
  rewrite !orb_true_iff, !andb_true_iff, !orb_true_iff, !andb_true_iff,
    !Nat.eqb_eq, !Nat.leb_le.
  lia.
Qed.

Lemma trimStartBytes_printable (l : list ascii) :
  Forall (fun c => (33 <= nat_of_ascii c <= 126)%nat) l ->
  trimStartBytes l = l.
Proof.
  intros H. destruct H as [|c1 r1 H1 _]; [reflexivity|].
  cbn [trimStartBytes]. rewrite (space1_false c1 H1).
  destruct r1 as [|c2 r2]; [reflexivity|].
  destruct (space2 c1 c2) eqn:E2; [apply space2_high in E2; lia|].
  destruct r2 as [|c3 r3]; [reflexivity|].
  destruct (space3 c1 c2 c3) eqn:E3; [apply space3_high in E3; lia|].
  reflexivity.
Qed.

Lemma trimEndReversed_printable (l : list ascii) :
  Forall (fun c => (33 <= nat_of_ascii c <= 126)%nat) l ->
  trimEndReversed l = l.
Proof.
  intros H. destruct H as [|c1 r1 H1 _]; [reflexivity|].
  cbn [trimEndReversed]. rewrite (space1_false c1 H1).
  destruct r1 as [|c2 r2]; [reflexivity|].
  destruct (space2 c2 c1) eqn:E2; [apply space2_high in E2; lia|].
  destruct r2 as [|c3 r3]; [reflexivity|].
  destruct (space3 c3 c2 c1) eqn:E3; [apply space3_high in E3; lia|].
  reflexivity.
Qed.

Lemma trim_printable (s : string) :
  Forall (fun c => (33 <= nat_of_ascii c <= 126)%nat) (list_ascii_of_string s) ->
  trim s = s.
Proof.
  intros H. unfold trim.
  rewrite (trimStartBytes_printable _ H).
  rewrite trimEndReversed_printable by now apply Forall_rev.
  rewrite rev_involutive. apply string_of_list_ascii_of_string.
Qed.

Lemma firstMissing_spec (vars : list string) (e : env) :
  match firstMissing vars e with
  | Some envVar =>
      exists before after,
        vars = (before ++ envVar :: after)%list /\
        Forall (fun v => Auth.present (JsMap.get v e) = true) before /\
        Auth.present (JsMap.get envVar e) = false
  | None => Forall (fun v => Auth.present (JsMap.get v e) = true) vars
  end.
Proof.
  induction vars as [|v vars IH]; simpl; [constructor|].
  destruct (Auth.present (JsMap.get v e)) eqn:Hv; cbn [negb].
  - destruct (firstMissing vars e) as [envVar|].
    + destruct IH as [before [after [-> [Hb Hm]]]].
      exists (v :: before), after. repeat split; [now constructor | exact Hm].
    + now constructor.
  - exists [], vars. repeat split; [constructor | exact Hv].
Qed.

(** X30. The configuration loads exactly when the four required variables
    are set and not empty; otherwise loading throws, naming the first of
    [INSTAGRAM_APP_ID], [INSTAGRAM_APP_SECRET], [INSTAGRAM_REDIRECT_URI],
    [INSTAGRAM_SCOPES] that is missing. When [NODE_ENV] is not set or empty
    the configuration says ['development'], and [GET /api/tokens] is then
    served rather than refused with 403. *)
Theorem configuration_needs_the_four_variables (e : env) :
  match load e with
  | Auth.Ok cfg =>
      Forall (fun v => Auth.present (JsMap.get v e) = true) requiredEnvVars /\
      JsMap.get "INSTAGRAM_APP_ID" e = Some (appId cfg) /\
      JsMap.get "INSTAGRAM_APP_SECRET" e = Some (appSecret cfg) /\
      JsMap.get "INSTAGRAM_REDIRECT_URI" e = Some (redirectUri cfg) /\
      scopes cfg <> [] /\
      (Auth.present (JsMap.get "NODE_ENV" e) = false ->
       nodeEnv cfg = "development" /\
       forall toISOString clock store,
         Api.status (fst (Api.tokens toISOString (nodeEnv cfg) clock store))
         <> 403)
  | Auth.Throw message =>
      exists before envVar after,
        requiredEnvVars = (before ++ envVar :: after)%list /\
        Forall (fun v => Auth.present (JsMap.get v e) = true) before /\
        Auth.present (JsMap.get envVar e) = false /\
        message = "Missing required environment variable: " ++ envVar
  end.
Proof.
  unfold load. pose proof (firstMissing_spec requiredEnvVars e) as H.
  destruct (firstMissing requiredEnvVars e) as [envVar|].
  - destruct H as [before [after [H1 [H2 H3]]]].
    exists before, envVar, after. repeat split; assumption.
  - split; [exact H|]. cbn [appId appSecret redirectUri scopes nodeEnv].
    unfold requiredEnvVars in H.
    inversion H as [|? ? Ha H']; subst. inversion H' as [|? ? Hb H'']; subst.
    inversion H'' as [|? ? Hc _]; subst.
    unfold read.
    destruct (JsMap.get "INSTAGRAM_APP_ID" e) as [a|]; [|discriminate Ha].
    destruct (JsMap.get "INSTAGRAM_APP_SECRET" e) as [b|]; [|discriminate Hb].
    destruct (JsMap.get "INSTAGRAM_REDIRECT_URI" e) as [c|];
      [|discriminate Hc].
    split; [reflexivity|]. split; [reflexivity|]. split; [reflexivity|].
    split.
    + pose proof (splitComma_not_nil
                    match JsMap.get "INSTAGRAM_SCOPES" e with
                    | Some v => v | None => "" end) as Hne.
      destruct (splitComma _); [contradiction | discriminate].
    + intros Hunset.
      assert (Hdev : or_str (JsMap.get "NODE_ENV" e) "development"
                     = "development").
      { unfold or_str. destruct (JsMap.get "NODE_ENV" e) as [v|];
          [|reflexivity].
        cbn [Auth.present] in Hunset. now rewrite Hunset. }
      rewrite Hdev. split; [reflexivity|].
      intros toISOString clock store.
      unfold Api.tokens, TokenStorage.getAllTokens.
      cbn [String.eqb Ascii.eqb Bool.eqb negb].
      destruct (Api.tokenViews toISOString _); cbn; discriminate.
Qed.

(** X10. A scope list written without white space comes through the
    configuration unchanged: when [INSTAGRAM_SCOPES] consists of printable
    characters other than the space, the configured scopes joined with
    commas, as [buildAuthorizeUrl] sends them, are the variable itself, and
    no scope contains a comma. *)
Theorem scopes_round_trip (e : env) (cfg : oauthConfig) (value : string) :
  load e = Auth.Ok cfg ->
  JsMap.get "INSTAGRAM_SCOPES" e = Some value ->
  Forall (fun c => (33 <= nat_of_ascii c <= 126)%nat)
    (list_ascii_of_string value) ->
  scopes cfg = splitComma value /\
  join "," (scopes cfg) = value.
Proof.
  intros Hload Hget Hprintable. unfold load in Hload.
  destruct (firstMissing requiredEnvVars e); [discriminate|].
  injection Hload as <-. cbn [scopes]. unfold read. rewrite Hget.
  assert (Hmap : map trim (splitComma value) = splitComma value).
  { pose proof (splitComma_Forall _ value Hprintable) as Hparts.
    induction Hparts as [|part parts Hpart _ IH]; [reflexivity|].
    cbn [map]. now rewrite (trim_printable part Hpart), IH. }
  rewrite Hmap. split; [reflexivity | apply join_splitComma].
Qed.

Lemma scopes_round_trip_witness :
  exists cfg,
    load sampleEnv = Auth.Ok cfg /\
    join "," (scopes cfg) = "instagram_basic,pages_show_list".
Proof.
  destruct (load sampleEnv) as [cfg|m] eqn:Hload; [|discriminate Hload].
  exists cfg. split; [reflexivity|].
  apply (scopes_round_trip sampleEnv cfg "instagram_basic,pages_show_list"
           Hload eq_refl).
  repeat (constructor; [cbn; lia|]). constructor.
Defined.

(** X29. The route that starts the flow registers the token it sends: for
    a token of letters, digits and [-] (as [uuidv4] returns), the redirect
    goes to the authorize URL with the five parameters [client_id],
    [redirect_uri], [scope], [response_type=code] and, last and verbatim,
    [state]; the registry then holds that token with the reading of the
    clock, and the token store is untouched. No configured value can add a
    parameter: encoded values hold no [&], [=] or [#]. *)
Theorem flow_start_registers_the_state_it_sends
    (cfg : oauthConfig) (uuid : string) (now : Z) (s : Server.state) :
  Forall (fun ch => formSafe ch = true) (list_ascii_of_string uuid) ->
  let (answer, s') := instagram cfg uuid now s in
  answer =
    Auth.Redirect
      (authorizeUrl cfg ++ "?client_id=" ++ formEncode (appId cfg)
       ++ "&redirect_uri=" ++ formEncode (redirectUri cfg)
       ++ "&scope=" ++ formEncode (join "," (scopes cfg))
       ++ "&response_type=code&state=" ++ uuid) /\
  JsMap.get uuid (Server.stateStore s') = Some now /\
  Server.tokenStore s' = Server.tokenStore s /\
  (forall v ch, In ch (list_ascii_of_string (formEncode v)) ->
     ch <> "&"%char /\ ch <> "="%char /\ ch <> "#"%char).
Proof.
  intros Hsafe. unfold instagram, Csrf.generateState, buildAuthorizeUrl.
  split; [|split; [apply get_set_same | split; [reflexivity|]]].
  - unfold Url.toString. cbn [map fst snd join].
    rewrite (formEncode_safe uuid Hsafe).
    change (formEncode "client_id") with "client_id".
    change (formEncode "redirect_uri") with "redirect_uri".
    change (formEncode "scope") with "scope".
    change (formEncode "response_type") with "response_type".
    change (formEncode "code") with "code".
    change (formEncode "state") with "state".
    f_equal; rewrite ?append_assoc; reflexivity.
  - intros v ch Hin. apply formEncode_chars in Hin.
    repeat split; intros ->; destruct Hin as [H | [H | H]]; discriminate H.
Qed.

Lemma flow_start_registers_the_state_it_sends_witness :
  let (answer, s') :=
    instagram sampleConfig "7d444840-9dc0-41d1-b245-5ffdce74fad2"
      1700000000000 Server.initial in
  answer =
    Auth.Redirect
      "https://www.facebook.com/v21.0/dialog/oauth?client_id=1234567890&redirect_uri=http%3A%2F%2Flocalhost%3A3000%2Fauth%2Finstagram%2Fcallback&scope=instagram_basic%2Cpages_show_list&response_type=code&state=7d444840-9dc0-41d1-b245-5ffdce74fad2" /\
  JsMap.get "7d444840-9dc0-41d1-b245-5ffdce74fad2" (Server.stateStore s')
  = Some 1700000000000.
Proof.
  pose proof (flow_start_registers_the_state_it_sends sampleConfig
                "7d444840-9dc0-41d1-b245-5ffdce74fad2" 1700000000000
                Server.initial) as H.
  cbv zeta in H.
  destruct (instagram sampleConfig "7d444840-9dc0-41d1-b245-5ffdce74fad2"
              1700000000000 Server.initial) as [answer s'].
  destruct H as [Hanswer [Hget _]].
  - repeat (constructor; [reflexivity|]). constructor.
  - split; [rewrite Hanswer; reflexivity | exact Hget].
Defined.

End StartFacts.
